(** * india_numbertowords: the conversion engine

    A shallow embedding of [NumberEngine] (engine.py) and of [num2words]
    (__init__.py), and the properties of the input classifier and of the
    three word renderers.

    Conventions of the embedding.
    - A Python [str] is a [string]; each [ascii] stands for one code point
      below 256, classified as Python classifies that code point.
    - A Python [int] is a [Z]; [divmod] is floor division, as [Z.div] and
      [Z.modulo] are.
    - A call either returns, raises, or exhausts the recursion budget it was
      given: the type [outcome].
    - CPython's configurable cap on the length of int/str conversions is not
      part of the model. *)

From Stdlib Require Import ZArith Ascii String DecimalString.
From Stdlib Require DecimalZ DecimalPos DecimalN DecimalFacts.
From stdpp Require Import base tactics option list numbers strings gmap sorting.

Local Open Scope Z_scope.

(** ** Characters *)

Module Char.

Definition code (c : ascii) : N := N_of_ascii c.

Definition between (lo hi : N) (c : ascii) : bool :=
  ((lo <=? code c) && (code c <=? hi))%N.

(** The ten characters that form an integer literal. *)
Definition isdecimal (c : ascii) : bool := between 48 57 c.

(** [str.isdigit] also accepts the superscripts two, three and one. *)
Definition isdigit (c : ascii) : bool :=
  isdecimal c || between 178 179 c || between 185 185 c.

(** [str.isalpha]: the letters of the first 256 code points. *)
Definition isalpha (c : ascii) : bool :=
  between 65 90 c || between 97 122 c
  || between 170 170 c || between 181 181 c || between 186 186 c
  || between 192 214 c || between 216 246 c || between 248 255 c.

(** [str.isspace], the characters removed by [str.strip]. *)
Definition isspace (c : ascii) : bool :=
  between 9 13 c || between 28 32 c || between 133 133 c || between 160 160 c.

(** [int(c)] for a character on which [isdigit] holds: a superscript is no
    literal. *)
Definition digit_value (c : ascii) : option Z :=
  if isdecimal c then Some (Z.of_N (code c) - 48) else None.

Definition shift_up (c : ascii) : ascii := ascii_of_N (code c - 32).

(** [c.upper()] for a letter. The capitals of the micro sign and of y with
    diaeresis lie beyond code point 255, where no string of the model
    reaches: [None]. *)
Definition upper (c : ascii) : option string :=
  if between 97 122 c || between 224 246 c || between 248 254 c
  then Some (String (shift_up c) EmptyString)
  else if between 223 223 c then Some "SS"
  else if between 181 181 c || between 255 255 c then None
  else Some (String c EmptyString).

End Char.

(** ** Strings: the [str] methods the engine calls *)

Module Str.

Fixpoint any (p : ascii → bool) (s : string) : bool :=
  match s with
  | EmptyString => false
  | String c s' => p c || any p s'
  end.

Fixpoint all (p : ascii → bool) (s : string) : bool :=
  match s with
  | EmptyString => true
  | String c s' => p c && all p s'
  end.

Definition eqc (a b : ascii) : bool := Ascii.eqb a b.

(** [c in s] for a one-character [c]. *)
Definition contains (c : ascii) (s : string) : bool := any (eqc c) s.

(** [s.isdigit()]: false on the empty string. *)
Definition isdigit (s : string) : bool :=
  match s with
  | EmptyString => false
  | _ => all Char.isdigit s
  end.

(** [s.replace(c, '')] for a one-character [c]. *)
Fixpoint remove (c : ascii) (s : string) : string :=
  match s with
  | EmptyString => EmptyString
  | String a s' => if eqc c a then remove c s' else String a (remove c s')
  end.

(** [s.startswith(c)] for a one-character [c]. *)
Definition startswith (c : ascii) (s : string) : bool :=
  match s with
  | String a _ => eqc c a
  | EmptyString => false
  end.

(** [s.split(c)]: every occurrence of [c] ends a field. *)
Fixpoint split (c : ascii) (s : string) : list string :=
  match s with
  | EmptyString => [EmptyString]
  | String a s' =>
      if eqc c a then EmptyString :: split c s'
      else match split c s' with
           | f :: fs => String a f :: fs
           | [] => [String a EmptyString]
           end
  end.

Fixpoint lstrip (s : string) : string :=
  match s with
  | String a s' => if Char.isspace a then lstrip s' else s
  | EmptyString => EmptyString
  end.

(** [s.strip()] *)
Definition strip (s : string) : string :=
  String.rev (lstrip (String.rev (lstrip s))).

(** [sep.join(l)] *)
Fixpoint join (sep : string) (l : list string) : string :=
  match l with
  | [] => EmptyString
  | [w] => w
  | w :: l' => w +:+ sep +:+ join sep l'
  end.

(** [str(n)] for an [int]. *)
Definition of_Z (n : Z) : string := NilZero.string_of_int (Z.to_int n).

Fixpoint filter (p : ascii → bool) (s : string) : string :=
  match s with
  | EmptyString => EmptyString
  | String a s' => if p a then String a (filter p s') else filter p s'
  end.

Fixpoint chars (s : string) : list ascii :=
  match s with
  | EmptyString => []
  | String a s' => a :: chars s'
  end.

End Str.

(** ** Outcomes of a call *)

Inductive exn : Type :=
  | KeyError (key : Z)            (* a dict subscript on a missing key *)
  | InvalidLiteral (lit : string) (* the ValueError raised by int() *)
  | ZeroDivisionError
  | IndexError
  | TypeError
  | ValueError (msg : string).    (* raised by num2words *)

Inductive outcome (A : Type) : Type :=
  | Return (a : A)
  | Raise (e : exn)
  | Exhausted.                    (* the recursion budget ran out *)

Arguments Return {A} a.
Arguments Raise {A} e.
Arguments Exhausted {A}.

#[global] Instance outcome_ret : MRet outcome := @Return.
#[global] Instance outcome_bind : MBind outcome := λ A B k m,
  match m with
  | Return a => k a
  | Raise e => Raise e
  | Exhausted => Exhausted
  end.
#[global] Instance outcome_fmap : FMap outcome := λ A B f m,
  match m with
  | Return a => Return (f a)
  | Raise e => Raise e
  | Exhausted => Exhausted
  end.

(** A call that came back, with a value or with an exception. *)
Definition finished {A} (m : outcome A) : Prop := m ≠ Exhausted.

(** ** Python values and builtins *)

Inductive pyval : Type :=
  | PNone
  | PInt (n : Z)
  | PStr (s : string).

Definition str (v : pyval) : string :=
  match v with
  | PNone => "None"
  | PInt n => Str.of_Z n
  | PStr s => s
  end.

Fixpoint int_digits (acc : Z) (s : string) : option Z :=
  match s with
  | EmptyString => Some acc
  | String c s' =>
      match Char.digit_value c with
      | Some d => int_digits (10 * acc + d) s'
      | None => None
      end
  end.

(** [int(s)], as the engine calls it: on a string of [isdigit] characters. *)
Definition int (s : string) : outcome Z :=
  match s with
  | EmptyString => Raise (InvalidLiteral s)
  | _ => match int_digits 0 s with
         | Some n => Return n
         | None => Raise (InvalidLiteral s)
         end
  end.

(** The truth value of a string: non-empty. *)
Definition truthy (s : string) : bool :=
  match s with
  | EmptyString => false
  | _ => true
  end.

(** [divmod(a, b)] on ints. *)
Definition divmod (a b : Z) : outcome (Z * Z) :=
  if b =? 0 then Raise ZeroDivisionError else Return (a `div` b, a `mod` b).

(** [l[i]] *)
Definition index {A} (l : list A) (i : nat) : outcome A :=
  match l !! i with
  | Some x => Return x
  | None => Raise IndexError
  end.

(** An argument used as an int. *)
Definition as_int (v : pyval) : outcome Z :=
  match v with
  | PInt n => Return n
  | _ => Raise TypeError
  end.

(** ** The engine *)

(** The [lang_data] dictionary: [atoms] and [magnitudes] are subscripted, the
    other three are read with [get] and a default. *)
Record LangData : Type := {
  ld_atoms : gmap Z string;
  ld_magnitudes : list (Z * string);
  ld_alphabet : option (gmap string string);
  ld_decimal_point : option string;
  ld_separator : option string
}.

Record NumberEngine : Type := {
  atoms : gmap Z string;
  magnitudes : list (Z * string);
  alphabet : gmap string string;
  decimal_point : string;
  separator : string
}.

(** [NumberEngine.__init__] *)
Definition NumberEngine_init (lang_data : LangData) : NumberEngine := {|
  atoms := ld_atoms lang_data;
  magnitudes := ld_magnitudes lang_data;
  alphabet := default ∅ (ld_alphabet lang_data);
  decimal_point := default "point" (ld_decimal_point lang_data);
  separator := default " " (ld_separator lang_data)
|}.

(** The [result] dictionary of [_parse_input]. *)
Record parsed : Type := {
  parsed_mode : string;
  has_decimal : bool;
  value : pyval;
  integer : pyval;
  fractional : pyval
}.

Definition set_mode (m : string) (r : parsed) : parsed :=
  {| parsed_mode := m; has_decimal := has_decimal r; value := value r;
     integer := integer r; fractional := fractional r |}.

Definition set_value (v : pyval) (r : parsed) : parsed :=
  {| parsed_mode := parsed_mode r; has_decimal := has_decimal r; value := v;
     integer := integer r; fractional := fractional r |}.

Definition set_decimal (i : Z) (f : string) (r : parsed) : parsed :=
  {| parsed_mode := parsed_mode r; has_decimal := true; value := value r;
     integer := PInt i; fractional := PStr f |}.

(** [mode_override or 'currency'] *)
Definition or_currency (mode_override : option string) : string :=
  match mode_override with
  | None | Some EmptyString => "currency"
  | Some m => m
  end.

(** The two orders in which the grouping characters are deleted. *)
Definition clean_csh (text : string) : string :=
  Str.remove "-" (Str.remove " " (Str.remove "," text)).

Definition clean_chs (text : string) : string :=
  Str.remove " " (Str.remove "-" (Str.remove "," text)).

(** The heuristics block either returns at once or falls through to the
    final cleaning. *)
Inductive flow : Type :=
  | Returned (r : parsed)
  | Continue (r : parsed).

Definition heuristics (text : string) (mode_override : option string)
    (result : parsed) : flow :=
  match mode_override with
  | None =>
      if Str.startswith "0" text && (1 <? String.length text)%nat
         && Str.isdigit (clean_csh text)
      then Returned (set_value (PStr text) (set_mode "individual" result))
      else if Str.contains " " text || Str.contains "-" text
      then Continue (set_mode "individual" result)
      else if Str.contains "," text
      then Continue (set_mode "currency" result)
      else Continue result
  | Some _ => Continue result
  end.

(** [NumberEngine._parse_input]; it reads nothing of [self]. *)
Definition _parse_input (input_val : pyval) (mode_override : option string)
    : outcome parsed :=
  let result := {| parsed_mode := or_currency mode_override; has_decimal := false;
                   value := PNone; integer := PNone; fractional := PNone |} in
  let text := str input_val in
  if Str.any Char.isalpha text then
    Return (set_value (PStr text) (set_mode "individual" result))
  else if Str.contains "." text then
    let parts := Str.split "." text in
    p0 ← index parts 0;
    let int_part := clean_csh p0 in
    i ← (if truthy int_part && Str.isdigit int_part
         then int int_part else Return 0);
    p1 ← index parts 1;
    Return (set_decimal i p1 result)
  else
    match heuristics text mode_override result with
    | Returned r => Return r
    | Continue result =>
        let cleaned := clean_chs text in
        if Str.isdigit cleaned then
          n ← int cleaned;
          Return (set_value (PInt n) result)
        else
          Return (set_mode "individual" (set_value (PStr text) result))
    end.

Section Renderers.

Variable self : NumberEngine.

(** [self.atoms[digit]] *)
Definition atoms_get (k : Z) : outcome string :=
  match atoms self !! k with
  | Some w => Return w
  | None => Raise (KeyError k)
  end.

(** [self.alphabet.get(char.upper(), char)] *)
Definition alphabet_get (char : ascii) : string :=
  let raw := String char EmptyString in
  match Char.upper char with
  | Some k => default raw (alphabet self !! k)
  | None => raw
  end.

(** [int(char)] *)
Definition int_char (char : ascii) : outcome Z :=
  match Char.digit_value char with
  | Some d => Return d
  | None => Raise (InvalidLiteral (String char EmptyString))
  end.

(** One turn of the loop of [_convert_individual]: the word appended for
    [char], if any. *)
Definition individual_word (char : ascii) : outcome (option string) :=
  if Char.isdigit char then
    digit ← int_char char;
    w ← atoms_get digit;
    Return (Some w)
  else if Char.isalpha char then
    Return (Some (alphabet_get char))
  else
    Return None.

Fixpoint individual_words (text : string) : outcome (list string) :=
  match text with
  | EmptyString => Return []
  | String char text' =>
      w ← individual_word char;
      ws ← individual_words text';
      Return (option_list w ++ ws)
  end.

(** [NumberEngine._convert_individual] *)
Definition _convert_individual (text : pyval) : outcome string :=
  result ← individual_words (str text);
  Return (Str.join (separator self) result).

(** The loop over [self.magnitudes] in [_convert_currency], with [rec] for
    the recursive calls: [None] when no breakpoint is reached. *)
Fixpoint for_magnitudes (rec : Z → outcome string) (number : Z)
    (ms : list (Z * string)) : option (outcome string) :=
  match ms with
  | [] => None
  | (value, name) :: ms' =>
      if number >=? value then
        Some ('(quotient, remainder) ← divmod number value;
              q ← rec quotient;
              let result := q +:+ separator self +:+ name in
              if remainder >? 0 then
                r ← rec remainder;
                Return (Str.strip (result +:+ separator self +:+ r))
              else
                Return (Str.strip result))
      else for_magnitudes rec number ms'
  end.

(** [NumberEngine._convert_currency]; [fuel] bounds the depth of the
    nested calls. *)
Fixpoint _convert_currency (fuel : nat) (number : Z) : outcome string :=
  match atoms self !! number with
  | Some w => Return w
  | None =>
      let rec := match fuel with
                 | O => λ _, Exhausted
                 | S fuel' => _convert_currency fuel'
                 end in
      match for_magnitudes rec number (magnitudes self) with
      | Some r => r
      | None => _convert_individual (PStr (str (PInt number)))
      end
  end.

(** [NumberEngine._convert_decimal] *)
Definition _convert_decimal (fuel : nat) (integer_part : Z)
    (fractional_part : pyval) : outcome string :=
  int_words ← _convert_currency fuel integer_part;
  frac_words ← _convert_individual fractional_part;
  Return (int_words +:+ separator self +:+ decimal_point self
          +:+ separator self +:+ frac_words).

(** [NumberEngine.convert] *)
Definition convert (fuel : nat) (input_val : pyval)
    (mode : option string) : outcome string :=
  parsed ← _parse_input input_val mode;
  if String.eqb (parsed_mode parsed) "individual" then
    _convert_individual (value parsed)
  else if has_decimal parsed then
    integer_part ← as_int (integer parsed);
    _convert_decimal fuel integer_part (fractional parsed)
  else
    number ← as_int (value parsed);
    _convert_currency fuel number.

End Renderers.

(** ** The package: the registry of engines and [num2words] *)

(** The sixteen tables imported from the [languages] package. Its modules
    are not part of the sources at hand, so the tables are a parameter of
    the registry. *)
Record LanguageTables : Type := {
  HINDI_DATA : LangData;
  BENGALI_DATA : LangData;
  MARATHI_DATA : LangData;
  GUJARATI_DATA : LangData;
  TELUGU_DATA : LangData;
  KANNADA_DATA : LangData;
  TAMIL_DATA : LangData;
  MALAYALAM_DATA : LangData;
  ODIA_DATA : LangData;
  PUNJABI_DATA : LangData;
  ASSAMESE_DATA : LangData;
  URDU_DATA : LangData;
  NEPALI_DATA : LangData;
  SANSKRIT_DATA : LangData;
  MAITHILI_DATA : LangData;
  ENGLISH_DATA : LangData
}.

(** [d.keys()] *)
Definition keys {V} (d : gmap string V) : list string := (map_to_list d).*1.

(** [sorted(l)] on strings: by code points. *)
Definition sorted (l : list string) : list string := merge_sort String.le l.

Section Package.

Variable languages : LanguageTables.

Definition _engines : gmap string NumberEngine :=
  list_to_map [
    ("hi", NumberEngine_init (HINDI_DATA languages));
    ("bn", NumberEngine_init (BENGALI_DATA languages));
    ("mr", NumberEngine_init (MARATHI_DATA languages));
    ("gu", NumberEngine_init (GUJARATI_DATA languages));
    ("te", NumberEngine_init (TELUGU_DATA languages));
    ("kn", NumberEngine_init (KANNADA_DATA languages));
    ("ta", NumberEngine_init (TAMIL_DATA languages));
    ("ml", NumberEngine_init (MALAYALAM_DATA languages));
    ("or", NumberEngine_init (ODIA_DATA languages));
    ("pa", NumberEngine_init (PUNJABI_DATA languages));
    ("as", NumberEngine_init (ASSAMESE_DATA languages));
    ("ur", NumberEngine_init (URDU_DATA languages));
    ("ne", NumberEngine_init (NEPALI_DATA languages));
    ("sa", NumberEngine_init (SANSKRIT_DATA languages));
    ("mai", NumberEngine_init (MAITHILI_DATA languages));
    ("en", NumberEngine_init (ENGLISH_DATA languages))
  ].

(** [num2words(input_val, lang, mode)]; in the source [lang] defaults to
    ['hi'] and [mode] to [None]. *)
Definition num2words (fuel : nat) (input_val : pyval) (lang : string)
    (mode : option string) : outcome string :=
  match _engines !! lang with
  | None =>
      let available := Str.join ", " (sorted (keys _engines)) in
      Raise (ValueError ("Language '" +:+ lang
                         +:+ "' not supported. Available: " +:+ available))
  | Some engine => convert engine fuel input_val mode
  end.

End Package.

(** ** An example vocabulary

    English words in the shape the test suite expects ('forty two', 'one
    hundred fifty', 'ten lakh', 'A B', 'point'), used for the worked
    examples below. *)

Module Example.

Definition small : list string :=
  ["zero"; "one"; "two"; "three"; "four"; "five"; "six"; "seven"; "eight";
   "nine"; "ten"; "eleven"; "twelve"; "thirteen"; "fourteen"; "fifteen";
   "sixteen"; "seventeen"; "eighteen"; "nineteen"].

Definition tens : list string :=
  ["twenty"; "thirty"; "forty"; "fifty"; "sixty"; "seventy"; "eighty";
   "ninety"].

Definition word (n : nat) : string :=
  if (n <? 20)%nat then default "" (small !! n)
  else
    let t := default "" (tens !! (n / 10 - 2)%nat) in
    if (n mod 10 =? 0)%nat then t
    else t +:+ " " +:+ default "" (small !! (n mod 10)%nat).

Definition letters : list string :=
  ["A"; "B"; "C"; "D"; "E"; "F"; "G"; "H"; "I"; "J"; "K"; "L"; "M"; "N";
   "O"; "P"; "Q"; "R"; "S"; "T"; "U"; "V"; "W"; "X"; "Y"; "Z"].

Definition data : LangData := {|
  ld_atoms := list_to_map ((λ n, (Z.of_nat n, word n)) <$> seq 0 100);
  ld_magnitudes := [(10000000, "crore"); (100000, "lakh");
                    (1000, "thousand"); (100, "hundred")];
  ld_alphabet := Some (list_to_map ((λ l, (l, l)) <$> letters));
  ld_decimal_point := Some "point";
  ld_separator := None
|}.

Definition engine : NumberEngine := NumberEngine_init data.

(** The same vocabulary, with a blank left at the end of the only
    magnitude word. *)
Definition padded : NumberEngine := {|
  atoms := atoms engine;
  magnitudes := [(100, "hundred ")];
  alphabet := alphabet engine;
  decimal_point := decimal_point engine;
  separator := separator engine
|}.

Definition tables : LanguageTables := {|
  HINDI_DATA := data; BENGALI_DATA := data; MARATHI_DATA := data;
  GUJARATI_DATA := data; TELUGU_DATA := data; KANNADA_DATA := data;
  TAMIL_DATA := data; MALAYALAM_DATA := data; ODIA_DATA := data;
  PUNJABI_DATA := data; ASSAMESE_DATA := data; URDU_DATA := data;
  NEPALI_DATA := data; SANSKRIT_DATA := data; MAITHILI_DATA := data;
  ENGLISH_DATA := data
|}.

End Example.

(** ** Vocabulary of the statements

    [Fields.before c s] is [s] up to its first [c], [Fields.after c s] what
    follows that [c]; they describe the first two fields of [split]. *)

Module Fields.

Fixpoint before (c : ascii) (s : string) : string :=
  match s with
  | EmptyString => EmptyString
  | String a s' => if Str.eqc c a then EmptyString else String a (before c s')
  end.

Fixpoint after (c : ascii) (s : string) : string :=
  match s with
  | EmptyString => EmptyString
  | String a s' => if Str.eqc c a then s' else after c s'
  end.

End Fields.

(** The integer part of a dotted text, as [_parse_input] reads it from the
    first field. *)
Definition integer_of_field (field : string) : outcome Z :=
  let int_part := clean_csh field in
  if truthy int_part && Str.isdigit int_part then int int_part else Return 0.

(** One decomposition step in the words of the specification: the rendered
    quotient, the separator and the magnitude word, then the separator and
    the rendered remainder when the remainder is positive. *)
Definition step_as_specified (self : NumberEngine) (rec : Z → outcome string)
    (n v : Z) (name : string) : outcome string :=
  '(quotient, remainder) ← divmod n v;
  q ← rec quotient;
  let head := q +:+ separator self +:+ name in
  if remainder >? 0 then
    r ← rec remainder;
    Return (head +:+ separator self +:+ r)
  else
    Return head.

(** A text of decimal digits and grouping characters. *)
Definition grouped (a : ascii) : bool :=
  Char.isdecimal a || Str.eqc "-" a || Str.eqc " " a || Str.eqc "," a.

(** The word spoken for a digit character. *)
Definition spoken (self : NumberEngine) (c : ascii) (w : string) : Prop :=
  ∃ d, Char.digit_value c = Some d ∧ atoms self !! d = Some w.

(** The language codes, as the error message lists them. *)
Definition codes : list string :=
  ["as"; "bn"; "en"; "gu"; "hi"; "kn"; "mai"; "ml"; "mr"; "ne"; "or"; "pa";
   "sa"; "ta"; "te"; "ur"].

(** [SUPPORTED_LANGUAGES] *)
Definition SUPPORTED_LANGUAGES : gmap string string :=
  list_to_map [
    ("hi", "Hindi"); ("bn", "Bengali"); ("mr", "Marathi"); ("gu", "Gujarati");
    ("te", "Telugu"); ("kn", "Kannada"); ("ta", "Tamil"); ("ml", "Malayalam");
    ("or", "Odia"); ("pa", "Punjabi"); ("as", "Assamese"); ("ur", "Urdu");
    ("ne", "Nepali"); ("sa", "Sanskrit"); ("mai", "Maithili");
    ("en", "English")
  ].

(** [get_supported_languages()]: a copy of the table. *)
Definition get_supported_languages : gmap string string := SUPPORTED_LANGUAGES.

(** A character on which [isdigit] holds and [int] fails. *)
Definition superscript (c : ascii) : bool :=
  Char.isdigit c && negb (Char.isdecimal c).

(** A character the individual renderer speaks: a digit or a letter. *)
Definition alnum (c : ascii) : bool := Char.isdigit c || Char.isalpha c.

(** The exceptions that a vocabulary or a literal can cause, as opposed to
    the ones a misuse of a value inside the engine would cause. *)
Definition data_error (e : exn) : Prop :=
  match e with
  | KeyError _ | InvalidLiteral _ | ZeroDivisionError => True
  | IndexError | TypeError | ValueError _ => False
  end.

(** An outcome that raises nothing but errors of the data. *)
Definition safe {A} (m : outcome A) : Prop := ∀ e, m = Raise e → data_error e.

(** A text with a character that is not white space. *)
Definition nonblank (s : string) : Prop :=
  Str.any (λ c, negb (Char.isspace c)) s = true.






(** The leading-zero test of the heuristics. *)
Definition leading_zero (text : string) : bool :=
  Str.startswith "0" text && (1 <? String.length text)%nat.

(** * Properties *)

(** ** Reading a dotted text *)

Module FieldsFacts.

Import Fields.

Lemma split_cons c s : ∃ fs, Str.split c s = before c s :: fs.
Proof.
  induction s as [|a s [fs IH]]; simpl; [by eexists|].
  destruct (Str.eqc c a); [by eexists|]. rewrite IH. by eexists.
Qed.

Lemma split_first c s : index (Str.split c s) 0 = Return (before c s).
Proof. destruct (split_cons c s) as [fs ->]. done. Qed.

Lemma split_second c s :
  Str.contains c s = true →
  index (Str.split c s) 1 = Return (before c (after c s)).
Proof.
  unfold Str.contains.
  induction s as [|a s IH]; simpl; [done|].
  destruct (Str.eqc c a) eqn:E; simpl.
  - intros _. apply split_first.
  - intros H. destruct (split_cons c s) as [fs Hfs].
    specialize (IH H). rewrite Hfs in IH |- *. exact IH.
Qed.

Lemma before_free c s : Str.contains c (before c s) = false.
Proof.
  unfold Str.contains.
  induction s as [|a s IH]; simpl; [done|].
  destruct (Str.eqc c a) eqn:E; simpl; [done|]. by rewrite E.
Qed.

Lemma after_shorter c s :
  (String.length (after c s) ≤ String.length s)%nat.
Proof.
  induction s as [|a s IH]; simpl; [done|].
  destruct (Str.eqc c a); lia.
Qed.

Lemma before_length c s :
  Str.contains c s = true →
  (String.length (before c s) < String.length s)%nat.
Proof.
  unfold Str.contains.
  induction s as [|a s IH]; simpl; [done|].
  destruct (Str.eqc c a); simpl; [lia|]. intros H. specialize (IH H). lia.
Qed.

End FieldsFacts.

Lemma parse_letters input_val mode_override :
  Str.any Char.isalpha (str input_val) = true →
  _parse_input input_val mode_override
  = Return {| parsed_mode := "individual"; has_decimal := false;
              value := PStr (str input_val);
              integer := PNone; fractional := PNone |}.
Proof. intros H. unfold _parse_input. by rewrite H. Qed.

Lemma parse_dotted input_val mode_override :
  Str.any Char.isalpha (str input_val) = false →
  Str.contains "." (str input_val) = true →
  _parse_input input_val mode_override
  = (i ← integer_of_field (Fields.before "." (str input_val));
     Return {| parsed_mode := or_currency mode_override; has_decimal := true;
               value := PNone; integer := PInt i;
               fractional :=
                 PStr (Fields.before "." (Fields.after "." (str input_val))) |}).
Proof.
  intros Ha Hd. unfold _parse_input. rewrite Ha, Hd.
  rewrite FieldsFacts.split_first, (FieldsFacts.split_second _ _ Hd). simpl.
  unfold integer_of_field.
  by destruct (truthy _ && Str.isdigit _); [destruct (int _)|].
Qed.

(** With a dot and no letter, every override but ['individual'] leads to
    the decimal renderer. *)
Lemma convert_dotted self fuel input_val mode :
  Str.any Char.isalpha (str input_val) = false →
  Str.contains "." (str input_val) = true →
  or_currency mode ≠ "individual" →
  convert self fuel input_val mode
  = (i ← integer_of_field (Fields.before "." (str input_val));
     _convert_decimal self fuel i
       (PStr (Fields.before "." (Fields.after "." (str input_val))))).
Proof.
  intros Ha Hd Hm. unfold convert. rewrite (parse_dotted _ _ Ha Hd).
  destruct (integer_of_field _); simpl; try done.
  by apply String.eqb_neq in Hm as ->.
Qed.

(** With a dot, no letter and the override ['individual'], [convert] hands
    the unset [value] to the individual renderer. *)
Lemma convert_dotted_individual self fuel input_val :
  Str.any Char.isalpha (str input_val) = false →
  Str.contains "." (str input_val) = true →
  convert self fuel input_val (Some "individual")
  = (_ ← integer_of_field (Fields.before "." (str input_val));
     _convert_individual self PNone).
Proof.
  intros Ha Hd. unfold convert. rewrite (parse_dotted _ _ Ha Hd).
  by destruct (integer_of_field _).
Qed.

(** C1. Claimed: a text with a dot and no letter gets the decimal rendering
    whatever the override. Under the override ['individual'] the code does
    not: for "3.14" it spells the text "None" letter by letter, while the
    decimal rendering of the same text, obtained without override, is
    "three point one four". *)
Theorem decimal_text_under_individual_override :
  convert Example.engine 4 (PStr "3.14") (Some "individual") = Return "N O N E"
  ∧ convert Example.engine 4 (PStr "3.14") (Some "currency")
    = Return "three point one four"
  ∧ _convert_decimal Example.engine 4 3 (PStr "14")
    = Return "three point one four".
Proof. by vm_compute. Qed.

(** C2, as claimed, fails: the fractional part read from "1.2.3" is not
    "2.3". *)
Lemma fraction_of_1_2_3_is_not_2_3 :
  fractional <$> _parse_input (PStr "1.2.3") None ≠ Return (PStr "2.3").
Proof. by vm_compute. Qed.

(** C2, amended. For every letter-free text with at least one dot, the
    classifier splits at every dot: the integer part is read from the field
    before the first dot, and the fractional part is the field between the
    first dot and the second (the whole rest when there is one dot only).
    What follows a second dot is dropped, so the fractional part has no
    dot in it. *)
Theorem dotted_text_keeps_second_field text mode_override :
  Str.any Char.isalpha text = false →
  Str.contains "." text = true →
  _parse_input (PStr text) mode_override
  = (i ← integer_of_field (Fields.before "." text);
     Return {| parsed_mode := or_currency mode_override; has_decimal := true;
               value := PNone; integer := PInt i;
               fractional :=
                 PStr (Fields.before "." (Fields.after "." text)) |})
  ∧ Str.contains "." (Fields.before "." (Fields.after "." text)) = false
  ∧ (Str.contains "." (Fields.after "." text) = true →
     Fields.before "." (Fields.after "." text) ≠ Fields.after "." text).
Proof.
  intros Ha Hd. split; [exact (parse_dotted (PStr text) _ Ha Hd)|].
  split; [apply FieldsFacts.before_free|].
  intros H E. apply FieldsFacts.before_length in H. rewrite E in H. lia.
Qed.

Lemma dotted_text_keeps_second_field_witness :
  _parse_input (PStr "192.168.1.1") None
  = Return {| parsed_mode := "currency"; has_decimal := true;
              value := PNone; integer := PInt 192;
              fractional := PStr "168" |}.
Proof.
  exact (proj1 (dotted_text_keeps_second_field "192.168.1.1" None
                  eq_refl eq_refl)).
Defined.

(** ** The currency renderer *)

Section Currency.

Variable self : NumberEngine.

Lemma for_magnitudes_none rec n ms :
  Forall (λ m, n < m.1) ms → for_magnitudes self rec n ms = None.
Proof.
  induction 1 as [|[v name] ms Hv _ IH]; simpl in *; [done|].
  by assert ((n >=? v) = false) as -> by lia.
Qed.

Lemma for_magnitudes_first rec n pre v name post :
  Forall (λ m, n < m.1) pre → v ≤ n →
  for_magnitudes self rec n (pre ++ (v, name) :: post)
  = Some (Str.strip <$> step_as_specified self rec n v name).
Proof.
  intros Hpre Hv.
  induction Hpre as [|[v' name'] pre Hv' _ IH]; simpl in *.
  - assert ((n >=? v) = true) as -> by lia. f_equal.
    unfold step_as_specified.
    destruct (divmod n v) as [[quotient remainder]| |]; simpl; try done.
    destruct (rec quotient); simpl; try done.
    destruct (remainder >? 0); simpl; try done.
    by destruct (rec remainder).
  - by assert ((n >=? v') = false) as -> by lia.
Qed.

Lemma for_magnitudes_ext rec rec' n ms :
  (∀ v name, (v, name) ∈ ms → v ≤ n → v ≠ 0 →
     rec (n `div` v) = rec' (n `div` v)
     ∧ rec (n `mod` v) = rec' (n `mod` v)) →
  for_magnitudes self rec n ms = for_magnitudes self rec' n ms.
Proof.
  induction ms as [|[v name] ms IH]; intros H; simpl; [done|].
  destruct (n >=? v) eqn:E.
  - f_equal. unfold divmod. destruct (v =? 0) eqn:E0; [done|]. simpl.
    destruct (H v name) as [-> ->]; [by left|lia|lia|done].
  - apply IH. intros v' name' Hin. apply (H v' name'). by right.
Qed.

Lemma for_magnitudes_finished rec n ms r :
  (∀ v name, (v, name) ∈ ms → v ≤ n → v ≠ 0 →
     finished (rec (n `div` v)) ∧ finished (rec (n `mod` v))) →
  for_magnitudes self rec n ms = Some r → finished r.
Proof.
  induction ms as [|[v name] ms IH]; intros H; simpl; [done|].
  destruct (n >=? v) eqn:E.
  - intros [= <-]. unfold divmod. destruct (v =? 0) eqn:E0; [done|]. simpl.
    destruct (H v name) as [Hq Hr]; [by left|lia|lia|].
    destruct (rec (n `div` v)); simpl; try done.
    destruct (n `mod` v >? 0); [|done].
    by destruct (rec (n `mod` v)).
  - apply IH. intros v' name' Hin. apply (H v' name'). by right.
Qed.

End Currency.

Section CurrencyTheorems.

Variable self : NumberEngine.

Lemma individual_word_finished char : finished (individual_word self char).
Proof.
  unfold individual_word, int_char, atoms_get.
  destruct (Char.isdigit char); [|by destruct (Char.isalpha char)].
  destruct (Char.digit_value char) as [d|]; simpl; [|done].
  by destruct (atoms self !! d).
Qed.

Lemma individual_words_finished text : finished (individual_words self text).
Proof.
  induction text as [|char text IH]; simpl; [done|].
  pose proof (individual_word_finished char) as Hc.
  destruct (individual_word self char); simpl; try done.
  by destruct (individual_words self text).
Qed.

Lemma _convert_individual_finished text :
  finished (_convert_individual self text).
Proof.
  unfold _convert_individual.
  pose proof (individual_words_finished (str text)) as H.
  by destruct (individual_words self (str text)).
Qed.

(** The body of [_convert_currency], for any budget. *)
Lemma _convert_currency_unfold fuel number :
  _convert_currency self fuel number
  = match atoms self !! number with
    | Some w => Return w
    | None =>
        match for_magnitudes self
                (match fuel with
                 | O => λ _, Exhausted
                 | S fuel' => _convert_currency self fuel'
                 end) number (magnitudes self) with
        | Some r => r
        | None => _convert_individual self (PStr (str (PInt number)))
        end
    end.
Proof. by destruct fuel. Qed.

(** C5. An atom is rendered as its own word, before any decomposition is
    tried: for every key [v] of [atoms], [_convert_currency] returns
    [atoms[v]]; so the rendering of 0 is the vocabulary's word for zero. *)
Theorem atom_is_rendered_as_its_word fuel v w :
  atoms self !! v = Some w →
  _convert_currency self fuel v = Return w.
Proof. intros H. rewrite _convert_currency_unfold. by rewrite H. Qed.

(** C3, amended. For a number [n] that is no atom and whose first
    breakpoint not above it, in the order of [magnitudes], is [v], the
    renderer returns the rendered quotient, the separator and the
    magnitude word, followed by the separator and the rendered remainder
    exactly when the remainder is positive, and this text is returned
    with the white space at its two ends stripped. *)
Theorem currency_decomposes_at_first_breakpoint fuel n pre v name post :
  atoms self !! n = None →
  magnitudes self = pre ++ (v, name) :: post →
  Forall (λ m, n < m.1) pre →
  v ≤ n →
  _convert_currency self (S fuel) n
  = Str.strip <$>
      step_as_specified self (_convert_currency self fuel) n v name.
Proof.
  intros Ha Hm Hpre Hv. rewrite _convert_currency_unfold, Ha, Hm.
  by rewrite for_magnitudes_first.
Qed.

Lemma halving v n P :
  1 < v → v ≤ n → n < 2 * P →
  (0 ≤ n `div` v < P ∧ 0 ≤ n `mod` v < P)
  ∧ (0 ≤ n `div` v < n ∧ 0 ≤ n `mod` v < v).
Proof.
  intros Hv Hn HP.
  pose proof (Z.div_mod n v ltac:(lia)) as E.
  pose proof (Z.mod_pos_bound n v ltac:(lia)) as B.
  assert (1 ≤ n `div` v) by nia.
  repeat split; try lia; nia.
Qed.

Hypothesis breakpoints_above_one : Forall (λ m, 1 < m.1) (magnitudes self).

Lemma breakpoint_above_one v name : (v, name) ∈ magnitudes self → 1 < v.
Proof.
  intros Hin. rewrite Forall_forall in breakpoints_above_one.
  exact (breakpoints_above_one _ Hin).
Qed.

Lemma currency_budget fuel :
  ∀ n, 0 ≤ n → n < 2 ^ Z.of_nat fuel →
    finished (_convert_currency self fuel n)
    ∧ ∀ fuel', (fuel ≤ fuel')%nat →
        _convert_currency self fuel' n = _convert_currency self fuel n.
Proof.
  induction fuel as [|fuel IH]; intros n Hn Hlt.
  - assert (n = 0) as -> by (simpl in Hlt; lia).
    assert (∀ rec, for_magnitudes self rec 0 (magnitudes self) = None) as Hnone.
    { intros rec. apply for_magnitudes_none.
      eapply Forall_impl; [exact breakpoints_above_one|]. simpl. lia. }
    split.
    + rewrite _convert_currency_unfold, Hnone.
      destruct (atoms self !! 0); [done|]. apply _convert_individual_finished.
    + intros fuel' _. by rewrite !_convert_currency_unfold, !Hnone.
  - rewrite Nat2Z.inj_succ, Z.pow_succ_r in Hlt by lia.
    assert (∀ v name, (v, name) ∈ magnitudes self → v ≤ n → v ≠ 0 →
              (0 ≤ n `div` v < 2 ^ Z.of_nat fuel)
              ∧ (0 ≤ n `mod` v < 2 ^ Z.of_nat fuel)) as Hsmall.
    { intros v name Hin Hv _. apply breakpoint_above_one in Hin.
      by apply halving. }
    split.
    + rewrite _convert_currency_unfold.
      destruct (atoms self !! n); [done|].
      destruct (for_magnitudes _ _ _ _) as [r|] eqn:E;
        [|apply _convert_individual_finished].
      eapply for_magnitudes_finished; [|exact E].
      intros v name Hin Hv Hv0.
      destruct (Hsmall v name Hin Hv Hv0) as [[? ?] [? ?]].
      split; by apply IH.
    + intros [|fuel'] Hle; [lia|].
      rewrite (_convert_currency_unfold (S fuel')).
      rewrite (_convert_currency_unfold (S fuel)).
      destruct (atoms self !! n); [done|].
      rewrite (for_magnitudes_ext self (_convert_currency self fuel')
                 (_convert_currency self fuel)); [done|].
      intros v name Hin Hv Hv0.
      destruct (Hsmall v name Hin Hv Hv0) as [[? ?] [? ?]].
      split; apply IH; lia.
Qed.

End CurrencyTheorems.

(** C4. When every breakpoint is above 1, the recursion of the currency
    renderer ends for every [n ≥ 0]: each nested call is on a smaller
    number (the quotient is below [n], the remainder below the breakpoint,
    itself at most [n]), a budget of [fuel] nested calls is enough as soon
    as [n < 2 ^ fuel], and a larger budget gives the same result. *)
Theorem currency_recursion_ends self fuel n :
  Forall (λ m, 1 < m.1) (magnitudes self) →
  0 ≤ n →
  n < 2 ^ Z.of_nat fuel →
  finished (_convert_currency self fuel n)
  ∧ (∀ fuel', (fuel ≤ fuel')%nat →
       _convert_currency self fuel' n = _convert_currency self fuel n)
  ∧ (∀ v name, (v, name) ∈ magnitudes self → v ≤ n →
       0 ≤ n `div` v < n ∧ 0 ≤ n `mod` v < v).
Proof.
  intros Hm Hn Hlt.
  destruct (currency_budget self Hm fuel n Hn Hlt) as [Hf Hs].
  split; [done|]. split; [done|].
  intros v name Hin Hle.
  pose proof (breakpoint_above_one self Hm v name Hin) as Hv.
  pose proof (halving v n n Hv Hle ltac:(lia)). lia.
Qed.

(** ** Characters and texts of digits *)

Lemma decimal_char a :
  Char.isdecimal a = true →
  Char.isdigit a = true ∧ Char.isalpha a = false
  ∧ Str.eqc "." a = false ∧ Str.eqc "," a = false
  ∧ Str.eqc " " a = false ∧ Str.eqc "-" a = false
  ∧ ∃ d, Char.digit_value a = Some d ∧ 0 ≤ d ≤ 9.
Proof.
  destruct a as [[] [] [] [] [] [] [] []]; try discriminate; intros _;
    repeat split; try reflexivity; eexists; (split; [reflexivity|done]).
Qed.

Lemma grouping_char c a :
  c = ","%char ∨ c = " "%char ∨ c = "-"%char →
  Str.eqc c a = true →
  Char.isdigit a = false ∧ Char.isalpha a = false ∧ Char.isdecimal a = false
  ∧ Str.eqc "." a = false.
Proof.
  intros Hc E. apply Ascii.eqb_eq in E as <-.
  by destruct Hc as [->|[->| ->]].
Qed.

Lemma all_impl (p q : ascii → bool) s :
  (∀ a, p a = true → q a = true) → Str.all p s = true → Str.all q s = true.
Proof.
  intros Hpq. induction s as [|a s IH]; simpl; [done|].
  intros [Ha Hs]%andb_true_iff. by rewrite (Hpq a Ha), IH.
Qed.

Lemma all_none (p q : ascii → bool) s :
  (∀ a, p a = true → q a = false) → Str.all p s = true → Str.any q s = false.
Proof.
  intros Hpq. induction s as [|a s IH]; simpl; [done|].
  intros [Ha Hs]%andb_true_iff. by rewrite (Hpq a Ha), IH.
Qed.

Lemma all_remove (p : ascii → bool) c s :
  Str.all p (Str.remove c s) = true →
  Str.all (λ a, p a || Str.eqc c a) s = true.
Proof.
  induction s as [|a s IH]; simpl; [done|].
  destruct (Str.eqc c a) eqn:E; simpl.
  - intros H. by rewrite orb_true_r, IH.
  - intros [Ha Hs]%andb_true_iff. by rewrite Ha, IH.
Qed.

Lemma remove_absent c s : Str.contains c s = false → Str.remove c s = s.
Proof.
  unfold Str.contains. induction s as [|a s IH]; simpl; [done|].
  intros [-> Hs]%orb_false_iff. by rewrite IH.
Qed.

Lemma grouped_char a :
  grouped a = true →
  Char.isalpha a = false ∧ Str.eqc "." a = false
  ∧ (Char.isdecimal a = true
     ∨ (Char.isdecimal a = false ∧ Char.isdigit a = false)).
Proof.
  destruct a as [[] [] [] [] [] [] [] []]; try discriminate; intros _;
    (split; [reflexivity|]); (split; [reflexivity|]);
    ((left; reflexivity) || (right; split; reflexivity)).
Qed.

Lemma clean_csh_grouped text :
  Str.all Char.isdecimal (clean_csh text) = true →
  Str.all grouped text = true.
Proof.
  unfold clean_csh.
  intros H%all_remove%all_remove%all_remove.
  revert H. by apply all_impl.
Qed.

(** ** Decimal strings of integers *)

Lemma string_of_uint_decimal d :
  Str.all Char.isdecimal (NilEmpty.string_of_uint d) = true.
Proof. induction d; simpl; [done|by rewrite IHd..]. Qed.

Lemma int_digits_acc d acc :
  int_digits (Z.pos acc) (NilEmpty.string_of_uint d)
  = Some (Z.pos (Pos.of_uint_acc d acc)).
Proof.
  revert acc. induction d; intros acc; simpl; [done|..];
    change (Char.digit_value _) with (Some 0) ||
    change (Char.digit_value _) with (Some 1) ||
    change (Char.digit_value _) with (Some 2) ||
    change (Char.digit_value _) with (Some 3) ||
    change (Char.digit_value _) with (Some 4) ||
    change (Char.digit_value _) with (Some 5) ||
    change (Char.digit_value _) with (Some 6) ||
    change (Char.digit_value _) with (Some 7) ||
    change (Char.digit_value _) with (Some 8) ||
    change (Char.digit_value _) with (Some 9);
    cbv iota beta; rewrite <- IHd; f_equal; lia.
Qed.

Lemma int_digits_uint d :
  int_digits 0 (NilEmpty.string_of_uint d) = Some (Z.of_N (Pos.of_uint d)).
Proof.
  induction d; simpl; [done|exact IHd|..];
    change (Char.digit_value _) with (Some 1) ||
    change (Char.digit_value _) with (Some 2) ||
    change (Char.digit_value _) with (Some 3) ||
    change (Char.digit_value _) with (Some 4) ||
    change (Char.digit_value _) with (Some 5) ||
    change (Char.digit_value _) with (Some 6) ||
    change (Char.digit_value _) with (Some 7) ||
    change (Char.digit_value _) with (Some 8) ||
    change (Char.digit_value _) with (Some 9);
    cbv iota beta; apply int_digits_acc.
Qed.

Lemma of_Z_pos p :
  Str.of_Z (Z.pos p) = NilEmpty.string_of_uint (Pos.to_uint p)
  ∧ Str.of_Z (Z.pos p) ≠ EmptyString.
Proof.
  unfold Str.of_Z. simpl. unfold NilZero.string_of_uint.
  pose proof (DecimalPos.Unsigned.to_uint_nonnil p) as H.
  by destruct (Pos.to_uint p).
Qed.

Lemma of_Z_nonneg n :
  0 ≤ n →
  Str.all Char.isdecimal (Str.of_Z n) = true
  ∧ Str.isdigit (Str.of_Z n) = true
  ∧ int (Str.of_Z n) = Return n.
Proof.
  intros Hn. destruct n as [|p|p]; [done| |lia].
  destruct (of_Z_pos p) as [E Hne]. rewrite E in *.
  pose proof (string_of_uint_decimal (Pos.to_uint p)) as Hd.
  split; [done|]. split.
  - unfold Str.isdigit.
    destruct (NilEmpty.string_of_uint _) as [|c0 s0] eqn:Es; [done|].
    revert Hd. apply all_impl. intros c Hc. by apply decimal_char.
  - unfold int. rewrite int_digits_uint, DecimalPos.Unsigned.of_to.
    by destruct (NilEmpty.string_of_uint _).
Qed.

Lemma of_Z_neg n : n < 0 → Str.of_Z n = String "-" (Str.of_Z (- n)).
Proof.
  intros Hn. destruct n as [|p|p]; [lia..|].
  unfold Str.of_Z. simpl.
  pose proof (DecimalPos.Unsigned.to_uint_nonnil p) as H.
  by destruct (Pos.to_uint p).
Qed.

(** ** The classifier and the individual renderer *)

Lemma isdigit_of_decimal s :
  s ≠ EmptyString → Str.all Char.isdecimal s = true → Str.isdigit s = true.
Proof.
  intros Hne H. destruct s as [|c s]; [done|].
  revert H. apply all_impl. intros a Ha. by apply decimal_char.
Qed.

Lemma decimal_text_plain s :
  Str.all Char.isdecimal s = true →
  Str.any Char.isalpha s = false
  ∧ Str.contains "." s = false ∧ Str.contains "," s = false
  ∧ Str.contains " " s = false ∧ Str.contains "-" s = false
  ∧ Str.all grouped s = true ∧ Str.filter Char.isdecimal s = s.
Proof.
  intros H. unfold Str.contains.
  repeat split; try (revert H; apply all_none; intros a Ha;
                     by destruct (decimal_char a Ha) as (?&?&?&?&?&?&?)).
  - revert H. apply all_impl. intros a Ha. unfold grouped. by rewrite Ha.
  - induction s as [|a s IH]; simpl in *; [done|].
    apply andb_true_iff in H as [-> Hs]. by rewrite IH.
Qed.

Section Individual.

Variable self : NumberEngine.

Hypothesis digits_are_atoms : ∀ d, 0 ≤ d ≤ 9 → is_Some (atoms self !! d).

Lemma individual_words_grouped text :
  Str.all grouped text = true →
  ∃ ws, individual_words self text = Return ws
        ∧ Forall2 (spoken self) (Str.chars (Str.filter Char.isdecimal text)) ws.
Proof.
  induction text as [|a text IH]; simpl; [by exists []; split; constructor|].
  intros [Ha Hs]%andb_true_iff. destruct (IH Hs) as (ws & -> & Hws).
  destruct (grouped_char a Ha) as (Halpha & _ & [Hd|[Hd Hnd]]).
  - destruct (decimal_char a Hd) as (Hdig & _ & _ & _ & _ & _ & d & Hv & Hr).
    destruct (digits_are_atoms d Hr) as [w Hw].
    exists (w :: ws). rewrite Hd. unfold individual_word, int_char, atoms_get.
    rewrite Hdig, Hv. simpl. rewrite Hw. simpl. split; [done|].
    constructor; [|done]. by exists d.
  - exists ws. rewrite Hd. unfold individual_word. by rewrite Hnd, Halpha.
Qed.

End Individual.

Lemma bind_return {A} (m : outcome A) : (x ← m; Return x) = m.
Proof. by destruct m. Qed.

Section Rendering.

Variable self : NumberEngine.




Hypothesis digits_are_atoms : ∀ d, 0 ≤ d ≤ 9 → is_Some (atoms self !! d).


End Rendering.


(** C7. A text that starts with 0, is longer than one character and
    consists, once commas, spaces and hyphens are deleted, of the decimal
    digits 0 to 9 only, is classified as individual when no override is
    given; when the vocabulary has the atoms 0 to 9, the output is the words
    of its digit characters, one word per digit, in order, joined by the
    separator. *)
Theorem leading_zero_selects_individual_mode self fuel text :
  Str.startswith "0" text = true →
  (1 < String.length text)%nat →
  Str.all Char.isdecimal (clean_csh text) = true →
  (∀ d, 0 ≤ d ≤ 9 → is_Some (atoms self !! d)) →
  _parse_input (PStr text) None
  = Return {| parsed_mode := "individual"; has_decimal := false;
              value := PStr text; integer := PNone; fractional := PNone |}
  ∧ ∃ ws, convert self fuel (PStr text) None
          = Return (Str.join (separator self) ws)
          ∧ Forall2 (spoken self)
              (Str.chars (Str.filter Char.isdecimal text)) ws.
Proof.
  intros Hstart Hlen Hdec Hatoms.
  pose proof (clean_csh_grouped text Hdec) as Hg.
  assert (Str.any Char.isalpha text = false) as Ha.
  { revert Hg. apply all_none. intros a Ha. by apply grouped_char. }
  assert (Str.contains "." text = false) as Hdot.
  { revert Hg. apply all_none. intros a Hga. by apply grouped_char. }
  assert (Str.isdigit (clean_csh text) = true) as Hdig.
  { apply isdigit_of_decimal; [|done].
    destruct text as [|c text]; [done|]. unfold Str.startswith, Str.eqc in Hstart.
    apply Ascii.eqb_eq in Hstart as <-. done. }
  assert (_parse_input (PStr text) None
          = Return {| parsed_mode := "individual"; has_decimal := false;
                      value := PStr text;
                      integer := PNone; fractional := PNone |}) as Hp.
  { unfold _parse_input, heuristics. simpl str. rewrite Ha, Hdot, Hstart, Hdig.
    by apply Nat.ltb_lt in Hlen as ->. }
  split; [done|].
  destruct (individual_words_grouped self Hatoms text Hg) as (ws & Hws & Hsp).
  exists ws. split; [|done].
  unfold convert. rewrite Hp. simpl. unfold _convert_individual. simpl.
  by rewrite Hws.
Qed.

(** C9. The empty text is rendered as the empty text, with or without an
    override, and nothing is raised: its cleaned form is not all digits, so
    the classifier falls back to individual mode with the value [""], and the
    individual renderer joins an empty list of words. *)
Theorem empty_text_gives_empty_text self fuel mode :
  _parse_input (PStr "") mode
  = Return {| parsed_mode := "individual"; has_decimal := false;
              value := PStr ""; integer := PNone; fractional := PNone |}
  ∧ convert self fuel (PStr "") mode = Return "".
Proof. by destruct mode. Qed.

(** C10. A negative integer given without override is classified as
    individual because of the hyphen of its text, its value is the absolute
    value, and [convert] renders the digits of the absolute value one by
    one, the minus sign leaving no trace: with the atoms 0 to 9 in the
    vocabulary the output is one word per digit of [-n]. *)
Theorem negative_integer_is_read_digit_by_digit self fuel n :
  n < 0 →
  _parse_input (PInt n) None
  = Return {| parsed_mode := "individual"; has_decimal := false;
              value := PInt (- n); integer := PNone; fractional := PNone |}
  ∧ convert self fuel (PInt n) None = _convert_individual self (PInt (- n))
  ∧ Str.all Char.isdecimal (str (PInt (- n))) = true
  ∧ ((∀ d, 0 ≤ d ≤ 9 → is_Some (atoms self !! d)) →
     ∃ ws, convert self fuel (PInt n) None
           = Return (Str.join (separator self) ws)
           ∧ Forall2 (spoken self) (Str.chars (str (PInt (- n)))) ws).
Proof.
  intros Hn.
  destruct (of_Z_nonneg (- n)) as (Hdec & Hdig & Hint); [lia|].
  destruct (decimal_text_plain _ Hdec)
    as (Ha & Hdot & Hcomma & Hspace & Hhyphen & Hg & Hfilter).
  assert (_parse_input (PInt n) None
          = Return {| parsed_mode := "individual"; has_decimal := false;
                      value := PInt (- n);
                      integer := PNone; fractional := PNone |}) as Hp.
  { unfold _parse_input, heuristics, clean_chs, Str.contains in *.
    simpl str. rewrite (of_Z_neg n Hn). simpl.
    rewrite Ha, Hdot, Hspace. simpl.
    rewrite (remove_absent "," _ Hcomma), (remove_absent "-" _ Hhyphen),
      (remove_absent " " _ Hspace), Hdig, Hint. done. }
  assert (convert self fuel (PInt n) None
          = _convert_individual self (PInt (- n))) as Hc.
  { unfold convert. by rewrite Hp. }
  repeat split; try done.
  intros Hatoms.
  destruct (individual_words_grouped self Hatoms _ Hg) as (ws & Hws & Hsp).
  exists ws. rewrite Hc. unfold _convert_individual. simpl str in *.
  rewrite Hws. rewrite Hfilter in Hsp. done.
Qed.

(** ** The package entry point *)

Lemma sorted_keys languages : sorted (keys (_engines languages)) = codes.
Proof. by vm_compute. Qed.

Lemma codes_supported languages code :
  code ∈ codes ↔ is_Some (_engines languages !! code).
Proof.
  rewrite <- elem_of_dom. unfold _engines. rewrite dom_list_to_map_L.
  rewrite elem_of_list_to_set. unfold codes. simpl.
  rewrite !elem_of_cons, !elem_of_nil. tauto.
Qed.

(** C8. A language code outside the supported set makes [num2words] raise,
    whatever the input, before any engine is called, and the message names
    the requested code and lists the valid codes; with a supported code the
    call is the engine's [convert] and this error does not occur. *)
Theorem unsupported_language_is_rejected languages fuel input_val lang mode :
  (lang ∉ codes →
   num2words languages fuel input_val lang mode
   = Raise (ValueError ("Language '" +:+ lang
                        +:+ "' not supported. Available: "
                        +:+ "as, bn, en, gu, hi, kn, mai, ml, mr, ne, or, "
                        +:+ "pa, sa, ta, te, ur")))
  ∧ (lang ∈ codes →
     ∃ engine, _engines languages !! lang = Some engine
               ∧ num2words languages fuel input_val lang mode
                 = convert engine fuel input_val mode)
  ∧ (∀ code, code ∈ codes ↔ is_Some (_engines languages !! code)).
Proof.
  split; [|split; [|apply codes_supported]].
  - intros H. unfold num2words.
    destruct (_engines languages !! lang) as [e|] eqn:E.
    { destruct H. apply (codes_supported languages). by exists e. }
    by rewrite sorted_keys.
  - intros [e E]%(codes_supported languages). exists e. split; [done|].
    unfold num2words. by rewrite E.
Qed.

(** ** Worked examples *)

Lemma example_digits d : 0 ≤ d ≤ 9 → is_Some (atoms Example.engine !! d).
Proof.
  intros Hd.
  assert (d = 0 ∨ d = 1 ∨ d = 2 ∨ d = 3 ∨ d = 4 ∨ d = 5 ∨ d = 6 ∨ d = 7
          ∨ d = 8 ∨ d = 9) as H by lia.
  destruct H as [->|[->|[->|[->|[->|[->|[->|[->|[->| ->]]]]]]]]];
    vm_compute; by eexists.
Defined.

(** C3, as claimed, fails: with the magnitude word "hundred " the code
    returns "one hundred" for 100, and not the concatenation "one hundred "
    of the rendered quotient, the separator and the magnitude word. *)
Lemma padded_magnitude_word_is_stripped :
  _convert_currency Example.padded 1 100
  ≠ step_as_specified Example.padded (_convert_currency Example.padded 0) 100 100 "hundred ".
Proof. vm_compute. discriminate. Qed.

Lemma currency_decomposes_at_first_breakpoint_witness :
  _convert_currency Example.engine 4 123456
  = Str.strip <$>
      step_as_specified Example.engine (_convert_currency Example.engine 3)
        123456 100000 "lakh".
Proof.
  apply (currency_decomposes_at_first_breakpoint Example.engine 3 123456
           [(10000000, "crore")] 100000 "lakh"
           [(1000, "thousand"); (100, "hundred")]).
  - vm_compute. reflexivity.
  - reflexivity.
  - constructor; [simpl; lia|constructor].
  - lia.
Defined.

Lemma currency_recursion_ends_witness :
  finished (_convert_currency Example.engine 17 123456)
  ∧ (∀ fuel', (17 ≤ fuel')%nat →
       _convert_currency Example.engine fuel' 123456
       = _convert_currency Example.engine 17 123456)
  ∧ (∀ v name, (v, name) ∈ magnitudes Example.engine → v ≤ 123456 →
       0 ≤ 123456 `div` v < 123456 ∧ 0 ≤ 123456 `mod` v < v).
Proof.
  apply (currency_recursion_ends Example.engine 17 123456).
  - repeat (constructor; [simpl; lia|]). constructor.
  - lia.
  - vm_compute. reflexivity.
Defined.

Lemma atom_is_rendered_as_its_word_witness :
  _convert_currency Example.engine 0 0 = Return "zero"
  ∧ _convert_currency Example.engine 0 42 = Return "forty two".
Proof.
  split.
  - apply (atom_is_rendered_as_its_word Example.engine 0 0 "zero").
    vm_compute. reflexivity.
  - apply (atom_is_rendered_as_its_word Example.engine 0 42 "forty two").
    vm_compute. reflexivity.
Defined.


Lemma leading_zero_selects_individual_mode_witness :
  _parse_input (PStr "007") None
  = Return {| parsed_mode := "individual"; has_decimal := false;
              value := PStr "007"; integer := PNone; fractional := PNone |}
  ∧ ∃ ws, convert Example.engine 0 (PStr "007") None
          = Return (Str.join " " ws)
          ∧ Forall2 (spoken Example.engine)
              (Str.chars (Str.filter Char.isdecimal "007")) ws.
Proof.
  apply (leading_zero_selects_individual_mode Example.engine 0 "007").
  - reflexivity.
  - simpl. lia.
  - reflexivity.
  - exact example_digits.
Defined.

Lemma negative_integer_is_read_digit_by_digit_witness :
  _parse_input (PInt (-42)) None
  = Return {| parsed_mode := "individual"; has_decimal := false;
              value := PInt 42; integer := PNone; fractional := PNone |}
  ∧ convert Example.engine 0 (PInt (-42)) None
    = _convert_individual Example.engine (PInt 42).
Proof.
  destruct (negative_integer_is_read_digit_by_digit Example.engine 0 (-42))
    as (Hp & Hc & _); [lia|].
  split; [exact Hp|exact Hc].
Defined.

Lemma unsupported_language_is_rejected_witness :
  num2words Example.tables 0 (PInt 42) "xx" None
  = Raise (ValueError ("Language 'xx' not supported. Available: "
                       +:+ "as, bn, en, gu, hi, kn, mai, ml, mr, ne, or, "
                       +:+ "pa, sa, ta, te, ur"))
  ∧ ∃ engine, _engines Example.tables !! "en" = Some engine
              ∧ num2words Example.tables 0 (PInt 42) "en" None
                = convert engine 0 (PInt 42) None.
Proof.
  split.
  - apply (proj1 (unsupported_language_is_rejected Example.tables 0 (PInt 42)
                    "xx" None)).
    unfold codes. rewrite !not_elem_of_cons. repeat (split; [done|]).
    apply not_elem_of_nil.
  - apply (proj1 (proj2 (unsupported_language_is_rejected Example.tables 0
                           (PInt 42) "en" None))).
    unfold codes. rewrite !elem_of_cons. tauto.
Defined.

(** * Further properties of the engine *)

(** ** More on decimal strings and cleaning *)

Lemma remove_comm a b s :
  Str.remove a (Str.remove b s) = Str.remove b (Str.remove a s).
Proof.
  induction s as [|c s IH]; simpl; [done|].
  destruct (Str.eqc b c) eqn:Eb, (Str.eqc a c) eqn:Ea; simpl;
    rewrite ?Ea, ?Eb; by rewrite ?IH.
Qed.

Lemma clean_orders_agree text : clean_csh text = clean_chs text.
Proof. unfold clean_csh, clean_chs. apply remove_comm. Qed.

Lemma int_digits_total s acc :
  0 ≤ acc → Str.all Char.isdecimal s = true →
  ∃ n, int_digits acc s = Some n ∧ 0 ≤ n.
Proof.
  revert acc. induction s as [|c s IH]; intros acc Hacc; simpl.
  - intros _. by exists acc.
  - intros [Hc Hs]%andb_true_iff.
    destruct (decimal_char c Hc) as (_ & _ & _ & _ & _ & _ & d & -> & Hd).
    apply IH; [lia|done].
Qed.

Lemma int_total s :
  Str.all Char.isdecimal s = true → s ≠ EmptyString →
  ∃ n, int s = Return n ∧ 0 ≤ n.
Proof.
  intros Hs Hne. destruct (int_digits_total s 0 ltac:(lia) Hs) as (n & Hn & ?).
  exists n. unfold int. rewrite Hn. by destruct s.
Qed.

Lemma uint_no_leading_zero p :
  Str.startswith "0" (NilEmpty.string_of_uint (Pos.to_uint p)) = false.
Proof.
  pose proof (DecimalPos.Unsigned.to_of (Pos.to_uint p)) as H.
  rewrite DecimalPos.Unsigned.of_to in H. simpl in H.
  pose proof (DecimalPos.Unsigned.to_uint_nonzero p) as Hnz.
  destruct (Pos.to_uint p) as [|l|l|l|l|l|l|l|l|l|l] eqn:E; try done.
  exfalso. unfold Decimal.unorm in H. simpl in H.
  destruct (Decimal.nzhead l) eqn:El; try discriminate.
  - by injection H as ->.
  - by apply DecimalFacts.nzhead_nonzero in El.
Qed.

Lemma of_Z_no_leading_zero n :
  0 ≤ n → leading_zero (Str.of_Z n) = false.
Proof.
  intros Hn. unfold leading_zero. destruct n as [|p|p]; [done| |lia].
  destruct (of_Z_pos p) as [-> _]. by rewrite uint_no_leading_zero.
Qed.

(** ** The numeric paths of the classifier *)

(** The mode left by the heuristics when they fall through. *)
Lemma parse_numeric input_val mode_override :
  Str.any Char.isalpha (str input_val) = false →
  Str.contains "." (str input_val) = false →
  Str.isdigit (clean_chs (str input_val)) = true →
  (mode_override = None → leading_zero (str input_val) = false) →
  _parse_input input_val mode_override
  = (n ← int (clean_chs (str input_val));
     Return {| parsed_mode :=
                 match mode_override with
                 | None =>
                     if Str.contains " " (str input_val)
                        || Str.contains "-" (str input_val)
                     then "individual" else "currency"
                 | Some _ => or_currency mode_override
                 end;
               has_decimal := false; value := PInt n;
               integer := PNone; fractional := PNone |}).
Proof.
  intros Ha Hd Hdig Hz. unfold _parse_input, heuristics.
  rewrite Ha, Hd. destruct mode_override as [m|].
  - rewrite Hdig. by destruct (int _).
  - fold (leading_zero (str input_val)). rewrite (Hz eq_refl). simpl.
    destruct (Str.contains " " _ || Str.contains "-" _); simpl.
    + rewrite Hdig. by destruct (int _).
    + destruct (Str.contains "," _); rewrite Hdig; by destruct (int _).
Qed.

Lemma parse_fallback input_val mode_override :
  Str.any Char.isalpha (str input_val) = false →
  Str.contains "." (str input_val) = false →
  Str.isdigit (clean_chs (str input_val)) = false →
  _parse_input input_val mode_override
  = Return {| parsed_mode := "individual"; has_decimal := false;
              value := PStr (str input_val);
              integer := PNone; fractional := PNone |}.
Proof.
  intros Ha Hd Hdig. unfold _parse_input, heuristics.
  rewrite Ha, Hd, clean_orders_agree, Hdig, andb_false_r.
  destruct mode_override as [m|]; [done|].
  destruct (Str.contains " " _ || Str.contains "-" _); [done|].
  by destruct (Str.contains "," _).
Qed.

Lemma grouped_clean text :
  Str.all grouped text = true →
  Str.all Char.isdecimal (clean_chs text) = true.
Proof.
  unfold clean_chs.
  induction text as [|c text IH]; [done|].
  cbn [Str.all Str.remove].
  intros [Hc Hs]%andb_true_iff. specialize (IH Hs).
  destruct (Str.eqc "," c) eqn:E1; [exact IH|]. cbn [Str.remove].
  destruct (Str.eqc "-" c) eqn:E2; [exact IH|]. cbn [Str.remove].
  destruct (Str.eqc " " c) eqn:E3; [exact IH|]. cbn [Str.all].
  rewrite IH, andb_true_r. unfold grouped in Hc.
  by rewrite E1, E2, E3, !orb_false_r in Hc.
Qed.

Lemma clean_keeps_digits text :
  Str.any Char.isdecimal text = true → clean_chs text ≠ EmptyString.
Proof.
  unfold clean_chs.
  induction text as [|c text IH]; [done|].
  cbn [Str.any Str.remove].
  destruct (Char.isdecimal c) eqn:Hc.
  - intros _. destruct (decimal_char c Hc) as (_ & _ & _ & E1 & E2 & E3 & _).
    rewrite E1. cbn [Str.remove]. rewrite E3. cbn [Str.remove]. by rewrite E2.
  - intros Hs. specialize (IH Hs).
    destruct (Str.eqc "," c); [done|]. cbn [Str.remove].
    destruct (Str.eqc "-" c); [done|]. cbn [Str.remove].
    by destruct (Str.eqc " " c).
Qed.

Lemma grouped_number text :
  Str.all grouped text = true →
  Str.any Char.isdecimal text = true →
  Str.any Char.isalpha text = false
  ∧ Str.contains "." text = false
  ∧ Str.isdigit (clean_chs text) = true
  ∧ ∃ n, int (clean_chs text) = Return n ∧ 0 ≤ n.
Proof.
  intros Hg Hd.
  pose proof (grouped_clean text Hg) as Hc.
  pose proof (clean_keeps_digits text Hd) as Hne.
  split; [revert Hg; apply all_none; intros a Hga; by apply grouped_char|].
  split; [revert Hg; apply all_none; intros a Hga; by apply grouped_char|].
  split; [by apply isdigit_of_decimal|by apply int_total].
Qed.

Lemma dispatch_numeric self fuel input_val mode m n :
  _parse_input input_val mode
  = Return {| parsed_mode := m; has_decimal := false; value := PInt n;
              integer := PNone; fractional := PNone |} →
  convert self fuel input_val mode
  = if String.eqb m "individual" then _convert_individual self (PInt n)
    else _convert_currency self fuel n.
Proof. intros H. unfold convert. rewrite H. simpl. by destruct (_ =? _)%string. Qed.

(** X1. An int [n ≥ 0] is read as a number: with no override, or any
    override other than ['individual'], [convert] is the currency rendering
    of [n]; with the override ['individual'] it is the digit-by-digit
    rendering of [n]. *)
Theorem nonnegative_int_is_read_as_given self fuel n mode :
  0 ≤ n →
  convert self fuel (PInt n) mode
  = if String.eqb (or_currency mode) "individual"
    then _convert_individual self (PInt n)
    else _convert_currency self fuel n.
Proof.
  intros Hn.
  destruct (of_Z_nonneg n Hn) as (Hdec & Hdig & Hint).
  destruct (decimal_text_plain _ Hdec)
    as (Ha & Hdot & Hcomma & Hspace & Hhyphen & _ & _).
  assert (clean_chs (Str.of_Z n) = Str.of_Z n) as Hclean.
  { unfold clean_chs. by rewrite (remove_absent "," _ Hcomma),
      (remove_absent "-" _ Hhyphen), (remove_absent " " _ Hspace). }
  apply dispatch_numeric. rewrite parse_numeric; simpl str;
    rewrite ?Hclean; try done.
  - rewrite Hint, Hspace, Hhyphen. by destruct mode.
  - intros _. by apply of_Z_no_leading_zero.
Qed.

Lemma nonnegative_int_is_read_as_given_witness :
  convert Example.engine 4 (PInt 2024) None
  = _convert_currency Example.engine 4 2024
  ∧ convert Example.engine 4 (PInt 2024) (Some "individual")
    = _convert_individual Example.engine (PInt 2024).
Proof.
  split.
  - apply (nonnegative_int_is_read_as_given Example.engine 4 2024 None). lia.
  - apply (nonnegative_int_is_read_as_given Example.engine 4 2024
             (Some "individual")). lia.
Defined.

(** X2. A text of decimal digits and commas with at least one digit, which
    the leading-zero test does not catch, is read without override as the
    number its digits spell: [convert] is the currency rendering of the
    int of the text without its commas. *)
Theorem comma_grouped_text_is_a_number self fuel text :
  Str.all grouped text = true →
  Str.any Char.isdecimal text = true →
  Str.contains " " text = false →
  Str.contains "-" text = false →
  leading_zero text = false →
  ∃ n, int (Str.remove "," text) = Return n ∧ 0 ≤ n
       ∧ convert self fuel (PStr text) None = _convert_currency self fuel n.
Proof.
  intros Hg Hd Hs Hh Hz.
  destruct (grouped_number text Hg Hd) as (Ha & Hdot & Hdig & n & Hint & Hn).
  assert (clean_chs text = Str.remove "," text) as Hclean.
  { unfold clean_chs.
    rewrite (remove_comm "-" "," text), (remove_absent "-" text Hh).
    by rewrite (remove_comm " " "," text), (remove_absent " " text Hs). }
  exists n. rewrite <- Hclean. split; [done|]. split; [done|].
  erewrite dispatch_numeric; [|rewrite (parse_numeric (PStr text)); simpl str;
    [by rewrite Hint|done..]].
  by rewrite Hs, Hh.
Qed.

Lemma comma_grouped_text_is_a_number_witness :
  ∃ n, int (Str.remove "," "1,23,456") = Return n ∧ 0 ≤ n
       ∧ convert Example.engine 5 (PStr "1,23,456") None
         = _convert_currency Example.engine 5 n.
Proof.
  apply (comma_grouped_text_is_a_number Example.engine 5 "1,23,456");
    reflexivity.
Defined.

(** X3. A text of decimal digits, commas, spaces and hyphens that has a
    space or a hyphen and is not caught by the leading-zero test is read
    without override in individual mode, but what is spoken is the int of
    the cleaned text, digit by digit: zeros that come first once the text
    is cleaned are lost. *)
Theorem separated_digits_are_read_from_the_int self fuel text :
  Str.all grouped text = true →
  Str.any Char.isdecimal text = true →
  Str.contains " " text || Str.contains "-" text = true →
  leading_zero text = false →
  ∃ n, int (clean_chs text) = Return n ∧ 0 ≤ n
       ∧ convert self fuel (PStr text) None
         = _convert_individual self (PInt n).
Proof.
  intros Hg Hd Hs Hz.
  destruct (grouped_number text Hg Hd) as (Ha & Hdot & Hdig & n & Hint & Hn).
  exists n. split; [done|]. split; [done|].
  erewrite dispatch_numeric; [|rewrite (parse_numeric (PStr text)); simpl str;
    [by rewrite Hint|done..]].
  simpl str. by rewrite Hs.
Qed.

Lemma separated_digits_are_read_from_the_int_witness :
  ∃ n, int (clean_chs "-007") = Return n ∧ 0 ≤ n
       ∧ convert Example.engine 0 (PStr "-007") None
         = _convert_individual Example.engine (PInt n).
Proof.
  apply (separated_digits_are_read_from_the_int Example.engine 0 "-007");
    reflexivity.
Defined.

(** X4. Under an override, a text of decimal digits, commas, spaces and
    hyphens with at least one digit skips the heuristics, the leading-zero
    test included: it is the int of the cleaned text that is rendered, as
    currency unless the override is ['individual'], and digit by digit if
    it is. *)
Theorem override_reads_the_cleaned_int self fuel text m :
  Str.all grouped text = true →
  Str.any Char.isdecimal text = true →
  ∃ n, int (clean_chs text) = Return n ∧ 0 ≤ n
       ∧ convert self fuel (PStr text) (Some m)
         = if String.eqb (or_currency (Some m)) "individual"
           then _convert_individual self (PInt n)
           else _convert_currency self fuel n.
Proof.
  intros Hg Hd.
  destruct (grouped_number text Hg Hd) as (Ha & Hdot & Hdig & n & Hint & Hn).
  exists n. split; [done|]. split; [done|].
  apply dispatch_numeric. rewrite (parse_numeric (PStr text)); simpl str;
    [by rewrite Hint|done..].
Qed.

Lemma override_reads_the_cleaned_int_witness :
  ∃ n, int (clean_chs "0123") = Return n ∧ 0 ≤ n
       ∧ convert Example.engine 3 (PStr "0123") (Some "currency")
         = _convert_currency Example.engine 3 n.
Proof.
  apply (override_reads_the_cleaned_int Example.engine 3 "0123" "currency");
    reflexivity.
Defined.

(** X5. A text with no letter and no dot whose cleaned form is not a
    string of digits is rendered character by character as it stands,
    whatever the override. *)
Theorem unparseable_text_falls_back_to_individual self fuel input_val mode :
  Str.any Char.isalpha (str input_val) = false →
  Str.contains "." (str input_val) = false →
  Str.isdigit (clean_chs (str input_val)) = false →
  _parse_input input_val mode
  = Return {| parsed_mode := "individual"; has_decimal := false;
              value := PStr (str input_val);
              integer := PNone; fractional := PNone |}
  ∧ convert self fuel input_val mode
    = _convert_individual self (PStr (str input_val)).
Proof.
  intros Ha Hd Hdig. split; [by apply parse_fallback|].
  unfold convert. by rewrite (parse_fallback _ mode Ha Hd Hdig).
Qed.

Lemma unparseable_text_falls_back_to_individual_witness :
  convert Example.engine 0 (PStr "+91#22") (Some "currency")
  = _convert_individual Example.engine (PStr "+91#22").
Proof.
  apply (unparseable_text_falls_back_to_individual Example.engine 0
           (PStr "+91#22") (Some "currency")); reflexivity.
Defined.

(** X6. In a text with a dot and no letter, an integer part that is empty
    or not a string of digits once cleaned counts as 0: unless the override
    is ['individual'], [convert] is the decimal rendering of 0 and of the
    field after the first dot. *)
Theorem missing_integer_part_is_zero self fuel text mode :
  Str.any Char.isalpha text = false →
  Str.contains "." text = true →
  Str.isdigit (clean_csh (Fields.before "." text)) = false →
  or_currency mode ≠ "individual" →
  convert self fuel (PStr text) mode
  = _convert_decimal self fuel 0
      (PStr (Fields.before "." (Fields.after "." text))).
Proof.
  intros Ha Hd Hdig Hm.
  rewrite (convert_dotted self fuel (PStr text) mode Ha Hd Hm).
  unfold integer_of_field. simpl str. by rewrite Hdig, andb_false_r.
Qed.

Lemma missing_integer_part_is_zero_witness :
  convert Example.engine 0 (PStr ".5") None
  = _convert_decimal Example.engine 0 0 (PStr "5").
Proof.
  apply (missing_integer_part_is_zero Example.engine 0 ".5" None);
    [reflexivity..|discriminate].
Defined.

(** ** The individual renderer *)

Lemma append_cons c a b : String c a +:+ b = String c (a +:+ b).
Proof. reflexivity. Qed.

Section IndividualFacts.

Variable self : NumberEngine.

Lemma individual_word_skipped c :
  alnum c = false → individual_word self c = Return None.
Proof.
  unfold alnum, individual_word. intros [-> ->]%orb_false_iff. done.
Qed.


Lemma individual_words_app a b :
  individual_words self (a +:+ b)
  = (wa ← individual_words self a;
     wb ← individual_words self b;
     Return (wa ++ wb)).
Proof.
  induction a as [|c a IH].
  - change (EmptyString +:+ b) with b. simpl.
    by destruct (individual_words self b).
  - rewrite append_cons. cbn [individual_words]. rewrite IH.
    destruct (individual_word self c) as [w| |]; simpl; try done.
    destruct (individual_words self a) as [wa| |]; simpl; try done.
    destruct (individual_words self b) as [wb| |]; simpl; try done.
    by rewrite app_assoc.
Qed.

Lemma individual_words_filter text :
  individual_words self (Str.filter alnum text) = individual_words self text.
Proof.
  induction text as [|c text IH]; [done|].
  cbn [Str.filter individual_words]. destruct (alnum c) eqn:E.
  - cbn [individual_words]. by rewrite IH.
  - rewrite (individual_word_skipped c E), IH. simpl. symmetry. apply bind_return.
Qed.


End IndividualFacts.

(** X7. The individual renderer speaks digits and letters only: any other
    character (hyphen, space, dot, comma, sign, ...) leaves the output
    unchanged, so a text and the same text without those characters are
    rendered alike. *)
Theorem individual_rendering_ignores_other_characters self text :
  _convert_individual self (PStr text)
  = _convert_individual self (PStr (Str.filter alnum text)).
Proof.
  unfold _convert_individual. simpl str. by rewrite individual_words_filter.
Qed.

(** X8. The words collected for two texts put end to end are the words of
    the first followed by the words of the second; an exception in the
    first part comes first. *)
Theorem individual_words_of_a_concatenation self a b :
  individual_words self (a +:+ b)
  = (wa ← individual_words self a;
     wb ← individual_words self b;
     Return (wa ++ wb)).
Proof. apply individual_words_app. Qed.



(** X10. The first digit whose atom is missing stops the individual
    renderer: when the text before it is rendered and the vocabulary has no
    atom for the digit [d], the call raises [KeyError d], whatever
    follows. *)
Theorem missing_digit_atom_raises_key_error self pre c d post ws :
  individual_words self pre = Return ws →
  Char.digit_value c = Some d →
  atoms self !! d = None →
  _convert_individual self (PStr (pre +:+ String c post))
  = Raise (KeyError d).
Proof.
  intros Hpre Hd Hnone. unfold _convert_individual. simpl str.
  rewrite individual_words_app, Hpre.
  cbn [mbind outcome_bind individual_words].
  unfold individual_word, int_char, atoms_get.
  assert (Char.isdigit c = true) as ->.
  { unfold Char.digit_value in Hd. unfold Char.isdigit.
    by destruct (Char.isdecimal c). }
  rewrite Hd. simpl. by rewrite Hnone.
Qed.

(** X11. A superscript digit (on which [isdigit] holds and [int] fails)
    stops the individual renderer in the same way: when the text before it
    is rendered, the call raises the error of [int] on that character. *)
Theorem superscript_digit_raises self pre c post ws :
  individual_words self pre = Return ws →
  superscript c = true →
  _convert_individual self (PStr (pre +:+ String c post))
  = Raise (InvalidLiteral (String c EmptyString)).
Proof.
  intros Hpre [Hd Hnd]%andb_true_iff. unfold _convert_individual. simpl str.
  rewrite individual_words_app, Hpre.
  cbn [mbind outcome_bind individual_words].
  unfold individual_word, int_char, Char.digit_value.
  rewrite Hd. apply negb_true_iff in Hnd as ->. done.
Qed.

Lemma missing_digit_atom_raises_key_error_witness :
  _convert_individual
    {| atoms := {[ 1 := "one" ]}; magnitudes := []; alphabet := ∅;
       decimal_point := "point"; separator := " " |} (PStr "12-3")
  = Raise (KeyError 2).
Proof.
  apply (missing_digit_atom_raises_key_error _ "1" "2" 2 "-3" ["one"]);
    reflexivity.
Defined.

Lemma superscript_digit_raises_witness :
  _convert_individual Example.engine
    (PStr ("0" +:+ String (ascii_of_N 178) "7"))
  = Raise (InvalidLiteral (String (ascii_of_N 178) EmptyString)).
Proof.
  apply (superscript_digit_raises Example.engine "0" (ascii_of_N 178) "7"
           ["zero"]); reflexivity.
Defined.

(** ** The currency renderer on unsound and on sound vocabularies *)

Section CurrencyEdges.

Variable self : NumberEngine.

Lemma for_magnitudes_returns rec n ms r :
  (∀ v name, (v, name) ∈ ms → v ≤ n → v ≠ 0 →
     (∃ s, rec (n `div` v) = Return s) ∧ (∃ s, rec (n `mod` v) = Return s)) →
  Forall (λ m, m.1 ≠ 0) ms →
  for_magnitudes self rec n ms = Some r → ∃ s, r = Return s.
Proof.
  induction ms as [|[v name] ms IH]; intros H Hnz; simpl; [done|].
  apply Forall_cons in Hnz as [Hv Hnz]. simpl in Hv.
  destruct (n >=? v) eqn:E.
  - intros [= <-]. unfold divmod.
    assert ((v =? 0) = false) as -> by lia. simpl.
    destruct (H v name) as [[q ->] [r' ->]]; [by left|lia|lia|]. simpl.
    destruct (n `mod` v >? 0); by eexists.
  - apply IH; [|done]. intros v' name' Hin. apply (H v' name'). by right.
Qed.

Hypothesis breakpoints_above_one : Forall (λ m, 1 < m.1) (magnitudes self).
Hypothesis digits_are_atoms : ∀ d, 0 ≤ d ≤ 9 → is_Some (atoms self !! d).

Lemma digits_of_int_are_spoken n :
  0 ≤ n → ∃ s, _convert_individual self (PStr (str (PInt n))) = Return s.
Proof.
  intros Hn. destruct (of_Z_nonneg n Hn) as (Hdec & _ & _).
  destruct (decimal_text_plain _ Hdec) as (_ & _ & _ & _ & _ & Hg & _).
  destruct (individual_words_grouped self digits_are_atoms _ Hg)
    as (ws & Hws & _).
  unfold _convert_individual. simpl str in *. rewrite Hws. by eexists.
Qed.

Lemma currency_returns fuel :
  ∀ n, 0 ≤ n → n < 2 ^ Z.of_nat fuel →
    ∃ s, _convert_currency self fuel n = Return s.
Proof.
  assert (Forall (λ m, m.1 ≠ 0) (magnitudes self)) as Hnz.
  { eapply Forall_impl; [exact breakpoints_above_one|]. simpl. lia. }
  induction fuel as [|fuel IH]; intros n Hn Hlt;
    rewrite _convert_currency_unfold;
    (destruct (atoms self !! n); [by eexists|]).
  - assert (n = 0) as -> by (simpl in Hlt; lia).
    rewrite for_magnitudes_none; [by apply digits_of_int_are_spoken|].
    eapply Forall_impl; [exact breakpoints_above_one|]. simpl. lia.
  - rewrite Nat2Z.inj_succ, Z.pow_succ_r in Hlt by lia.
    destruct (for_magnitudes _ _ _ _) as [r|] eqn:E;
      [|by apply digits_of_int_are_spoken].
    eapply for_magnitudes_returns; [|exact Hnz|exact E].
    intros v name Hin Hv _.
    pose proof (breakpoint_above_one self breakpoints_above_one v name Hin).
    destruct (halving v n (2 ^ Z.of_nat fuel)) as [[[? ?] [? ?]] _];
      [done..|].
    split; by apply IH.
Qed.

End CurrencyEdges.

(** X12. With a sound vocabulary (every breakpoint above 1 and the atoms 0
    to 9 present) the currency renderer returns a text for every [n ≥ 0],
    given a budget [fuel] with [n < 2 ^ fuel]: nothing is raised, even where
    atoms between 10 and 99 are missing. *)
Theorem sound_vocabulary_renders_every_number self fuel n :
  Forall (λ m, 1 < m.1) (magnitudes self) →
  (∀ d, 0 ≤ d ≤ 9 → is_Some (atoms self !! d)) →
  0 ≤ n →
  n < 2 ^ Z.of_nat fuel →
  ∃ s, _convert_currency self fuel n = Return s.
Proof. intros Hm Ha. by apply currency_returns. Qed.

Lemma sound_vocabulary_renders_every_number_witness :
  ∃ s, _convert_currency Example.engine 30 999999999 = Return s.
Proof.
  apply (sound_vocabulary_renders_every_number Example.engine 30 999999999).
  - repeat (constructor; [simpl; lia|]). constructor.
  - exact example_digits.
  - lia.
  - vm_compute. reflexivity.
Defined.

(** X13. A breakpoint equal to 1 makes the renderer recurse for ever: for
    a number [n ≥ 1] that is no atom and whose first breakpoint not above
    it is 1, the quotient is [n] again and no budget is enough. *)
Theorem breakpoint_one_never_returns self fuel n pre name post :
  atoms self !! n = None →
  magnitudes self = pre ++ (1, name) :: post →
  Forall (λ m, n < m.1) pre →
  1 ≤ n →
  _convert_currency self fuel n = Exhausted.
Proof.
  intros Ha Hm Hpre Hn.
  induction fuel as [|fuel IH]; rewrite _convert_currency_unfold, Ha, Hm,
    for_magnitudes_first by done; unfold step_as_specified, divmod;
    change (1 =? 0) with false; cbv iota;
    unfold mbind, outcome_bind, fmap, outcome_fmap; [done|].
  by rewrite Z.div_1_r, IH.
Qed.

Lemma breakpoint_one_never_returns_witness :
  _convert_currency
    {| atoms := {[ 0 := "zero" ]}; magnitudes := [(1, "unit")];
       alphabet := ∅; decimal_point := "point"; separator := " " |} 1000 5
  = Exhausted.
Proof.
  apply (breakpoint_one_never_returns _ 1000 5 [] "unit" []);
    [reflexivity|reflexivity|constructor|lia].
Defined.

(** X14. A breakpoint equal to 0 makes the renderer raise: for a number
    [n ≥ 0] that is no atom and whose first breakpoint not above it is 0,
    [divmod] raises ZeroDivisionError. *)
Theorem breakpoint_zero_raises self fuel n pre name post :
  atoms self !! n = None →
  magnitudes self = pre ++ (0, name) :: post →
  Forall (λ m, n < m.1) pre →
  0 ≤ n →
  _convert_currency self fuel n = Raise ZeroDivisionError.
Proof.
  intros Ha Hm Hpre Hn.
  by rewrite _convert_currency_unfold, Ha, Hm, for_magnitudes_first.
Qed.

Lemma breakpoint_zero_raises_witness :
  _convert_currency
    {| atoms := ∅; magnitudes := [(100, "hundred"); (0, "nought")];
       alphabet := ∅; decimal_point := "point"; separator := " " |} 0 7
  = Raise ZeroDivisionError.
Proof.
  apply (breakpoint_zero_raises _ 0 7 [(100, "hundred")] "nought" []);
    [reflexivity|reflexivity|by constructor|lia].
Defined.

(** X15. A number that is no atom and lies below every breakpoint is
    spelled digit by digit from its decimal text, with any budget. *)
Theorem number_below_every_breakpoint_is_spelled self fuel n :
  atoms self !! n = None →
  Forall (λ m, n < m.1) (magnitudes self) →
  _convert_currency self fuel n
  = _convert_individual self (PStr (Str.of_Z n)).
Proof.
  intros Ha Hm. by rewrite _convert_currency_unfold, Ha, for_magnitudes_none.
Qed.

Lemma number_below_every_breakpoint_is_spelled_witness :
  _convert_currency
    {| atoms := atoms Example.engine; magnitudes := [(1000, "thousand")];
       alphabet := ∅; decimal_point := "point"; separator := " " |} 0 407
  = Return "four zero seven".
Proof.
  etrans.
  - apply (number_below_every_breakpoint_is_spelled _ 0 407);
      [vm_compute; reflexivity|constructor; [simpl; lia|constructor]].
  - vm_compute. reflexivity.
Defined.

(** ** What [convert] can raise, and when it returns *)

Lemma any_remove p c s :
  Str.any p s = false → Str.any p (Str.remove c s) = false.
Proof.
  induction s as [|a s IH]; [done|]. cbn [Str.any Str.remove].
  intros [Ha Hs]%orb_false_iff. destruct (Str.eqc c a); [by apply IH|].
  cbn [Str.any]. by rewrite Ha, IH.
Qed.

Lemma any_before p c s :
  Str.any p s = false → Str.any p (Fields.before c s) = false.
Proof.
  induction s as [|a s IH]; [done|]. cbn [Str.any Fields.before].
  intros [Ha Hs]%orb_false_iff. destruct (Str.eqc c a); [done|].
  cbn [Str.any]. by rewrite Ha, IH.
Qed.

Lemma any_after p c s :
  Str.any p s = false → Str.any p (Fields.after c s) = false.
Proof.
  induction s as [|a s IH]; [done|]. cbn [Str.any Fields.after].
  intros [Ha Hs]%orb_false_iff. destruct (Str.eqc c a); [done|by apply IH].
Qed.

Lemma digits_without_superscript s :
  Str.all Char.isdigit s = true → Str.any superscript s = false →
  Str.all Char.isdecimal s = true.
Proof.
  induction s as [|a s IH]; [done|]. cbn [Str.all Str.any].
  intros [Ha Hs]%andb_true_iff [Hna Hns]%orb_false_iff.
  rewrite IH, andb_true_r by done. unfold superscript in Hna.
  rewrite Ha in Hna. by destruct (Char.isdecimal a).
Qed.

Lemma int_of_digits s :
  Str.isdigit s = true → Str.any superscript s = false →
  ∃ n, int s = Return n ∧ 0 ≤ n.
Proof.
  intros Hd Hs. destruct s as [|c s]; [done|].
  apply int_total; [|done]. by apply digits_without_superscript.
Qed.

Lemma int_digits_nonneg s acc n :
  0 ≤ acc → int_digits acc s = Some n → 0 ≤ n.
Proof.
  revert acc. induction s as [|c s IH]; intros acc Hacc; simpl.
  - by intros [= <-].
  - destruct (Char.digit_value c) as [d|] eqn:E; [|done].
    apply IH. unfold Char.digit_value in E.
    destruct (Char.isdecimal c) eqn:Hc; [|done].
    destruct (decimal_char c Hc) as (_ & _ & _ & _ & _ & _ & d' & E' & Hd).
    unfold Char.digit_value in E'. rewrite Hc in E'. simplify_eq. lia.
Qed.

Lemma int_nonneg s n : int s = Return n → 0 ≤ n.
Proof.
  unfold int. destruct s as [|c s]; [done|].
  destruct (int_digits 0 _) as [m|] eqn:E; [|done].
  intros [= <-]. by eapply int_digits_nonneg.
Qed.

Lemma integer_of_field_nonneg field i :
  integer_of_field field = Return i → 0 ≤ i.
Proof.
  unfold integer_of_field. destruct (truthy _ && Str.isdigit _).
  - apply int_nonneg.
  - by intros [= <-].
Qed.

Lemma integer_of_field_total field :
  Str.any superscript field = false →
  ∃ i, integer_of_field field = Return i ∧ 0 ≤ i.
Proof.
  intros Hs. unfold integer_of_field.
  destruct (truthy _ && Str.isdigit _) eqn:E; [|by exists 0].
  apply andb_true_iff in E as [_ E].
  apply int_of_digits; [done|]. unfold clean_csh. by do 3 apply any_remove.
Qed.

(** The three ways out of [_parse_input] when there is no letter and no
    dot. *)
Lemma parse_plain input_val mode_override :
  Str.any Char.isalpha (str input_val) = false →
  Str.contains "." (str input_val) = false →
  _parse_input input_val mode_override
  = Return {| parsed_mode := "individual"; has_decimal := false;
              value := PStr (str input_val);
              integer := PNone; fractional := PNone |}
  ∨ ∃ m, Str.isdigit (clean_chs (str input_val)) = true
         ∧ _parse_input input_val mode_override
           = (n ← int (clean_chs (str input_val));
              Return {| parsed_mode := m; has_decimal := false;
                        value := PInt n;
                        integer := PNone; fractional := PNone |}).
Proof.
  intros Ha Hd.
  destruct (Str.isdigit (clean_chs (str input_val))) eqn:Hdig;
    [|left; by apply parse_fallback].
  destruct mode_override as [m|].
  { right. eexists. split; [done|]. by apply parse_numeric. }
  destruct (leading_zero (str input_val)) eqn:Hz.
  - left. unfold _parse_input, heuristics.
    rewrite Ha, Hd, clean_orders_agree, Hdig.
    fold (leading_zero (str input_val)). by rewrite Hz.
  - right. eexists. split; [done|]. by apply parse_numeric.
Qed.

Lemma parse_shape input_val mode p :
  _parse_input input_val mode = Return p →
  if has_decimal p
  then parsed_mode p = or_currency mode ∧ value p = PNone
       ∧ (∃ i, 0 ≤ i ∧ integer p = PInt i)
       ∧ (∃ f, fractional p = PStr f ∧ Str.contains "." f = false)
  else integer p = PNone ∧ fractional p = PNone
       ∧ ((parsed_mode p = "individual" ∧ value p = PStr (str input_val))
          ∨ ∃ n, 0 ≤ n ∧ value p = PInt n).
Proof.
  destruct (Str.any Char.isalpha (str input_val)) eqn:Ha.
  { rewrite (parse_letters _ _ Ha). intros [= <-]. simpl. auto. }
  destruct (Str.contains "." (str input_val)) eqn:Hd.
  { rewrite (parse_dotted _ _ Ha Hd).
    destruct (integer_of_field _) as [i| |] eqn:Hi; try done.
    intros [= <-]. simpl. repeat split; try done.
    - exists i. split; [by eapply integer_of_field_nonneg|done].
    - eexists. split; [done|]. apply FieldsFacts.before_free. }
  destruct (parse_plain input_val mode Ha Hd) as [->|(m & _ & ->)].
  { intros [= <-]. simpl. auto. }
  destruct (int _) as [n| |] eqn:Hn; try done.
  intros [= <-]. simpl. repeat split; try done.
  right. exists n. split; [by eapply int_nonneg|done].
Qed.


(** X16. Whatever [_parse_input] returns is fit for the dispatch of
    [convert]: with [has_decimal] the integer part is an int [≥ 0], the
    fractional part a string without dot, [value] is unset and the mode is
    the override (or ['currency']); without it, either the mode is
    ['individual'] and [value] is the text of the input, or [value] is an
    int [≥ 0]. *)
Theorem parse_result_is_well_formed input_val mode p :
  _parse_input input_val mode = Return p →
  if has_decimal p
  then parsed_mode p = or_currency mode ∧ value p = PNone
       ∧ (∃ i, 0 ≤ i ∧ integer p = PInt i)
       ∧ (∃ f, fractional p = PStr f ∧ Str.contains "." f = false)
  else integer p = PNone ∧ fractional p = PNone
       ∧ ((parsed_mode p = "individual" ∧ value p = PStr (str input_val))
          ∨ ∃ n, 0 ≤ n ∧ value p = PInt n).
Proof. apply parse_shape. Qed.

Lemma parse_result_is_well_formed_witness :
  "currency" = or_currency None ∧ PNone = PNone
  ∧ (∃ i, 0 ≤ i ∧ PInt 1234 = PInt i)
  ∧ (∃ f, PStr "56" = PStr f ∧ Str.contains "." f = false).
Proof.
  exact (parse_result_is_well_formed (PStr "1,234.56") None _ eq_refl).
Defined.

Lemma parse_total input_val mode :
  Str.any superscript (str input_val) = false →
  ∃ p, _parse_input input_val mode = Return p.
Proof.
  intros Hs.
  destruct (Str.any Char.isalpha (str input_val)) eqn:Ha.
  { rewrite (parse_letters _ _ Ha). by eexists. }
  destruct (Str.contains "." (str input_val)) eqn:Hd.
  { rewrite (parse_dotted _ _ Ha Hd).
    destruct (integer_of_field_total (Fields.before "." (str input_val)))
      as (i & -> & _); [by apply any_before|]. by eexists. }
  destruct (parse_plain input_val mode Ha Hd) as [->|(m & Hdig & ->)];
    [by eexists|].
  destruct (int_of_digits _ Hdig) as (n & -> & _); [|by eexists].
  unfold clean_chs. by do 3 apply any_remove.
Qed.


(** X17. [_parse_input] returns for every input whose text has no
    superscript digit, whatever the override: the only exception it can
    raise is the one of [int] on such a character. *)
Theorem parse_returns_without_superscripts input_val mode :
  Str.any superscript (str input_val) = false →
  ∃ p, _parse_input input_val mode = Return p.
Proof. apply parse_total. Qed.

Lemma parse_returns_without_superscripts_witness :
  ∃ p, _parse_input (PStr "12 - 34,5") (Some "currency") = Return p.
Proof.
  apply (parse_returns_without_superscripts (PStr "12 - 34,5")
           (Some "currency")). reflexivity.
Defined.

Lemma safe_return {A} (a : A) : safe (Return a).
Proof. by intros e. Qed.

Lemma safe_exhausted {A} : safe (@Exhausted A).
Proof. by intros e. Qed.

Lemma safe_bind {A B} (m : outcome A) (k : A → outcome B) :
  safe m → (∀ a, m = Return a → safe (k a)) → safe (m ≫= k).
Proof.
  intros Hm Hk e. destruct m as [a|e'|]; simpl; [by apply Hk| |done].
  intros [= <-]. by apply Hm.
Qed.

Lemma safe_int s : safe (int s).
Proof.
  intros e. unfold int. destruct s; [by intros [= <-]|].
  destruct (int_digits _ _); [done|by intros [= <-]].
Qed.

Section Safety.

Variable self : NumberEngine.

Lemma safe_individual_word c : safe (individual_word self c).
Proof.
  unfold individual_word, int_char, atoms_get.
  destruct (Char.isdigit c); [|destruct (Char.isalpha c); apply safe_return].
  destruct (Char.digit_value c) as [d|]; simpl; [|by intros e [= <-]].
  destruct (atoms self !! d); [apply safe_return|by intros e [= <-]].
Qed.

Lemma safe_individual_words text : safe (individual_words self text).
Proof.
  induction text as [|c text IH]; [apply safe_return|].
  cbn [individual_words]. apply safe_bind; [apply safe_individual_word|].
  intros w _. apply safe_bind; [done|]. intros ws _. apply safe_return.
Qed.

Lemma safe_convert_individual text : safe (_convert_individual self text).
Proof.
  unfold _convert_individual. apply safe_bind; [apply safe_individual_words|].
  intros ws _. apply safe_return.
Qed.

Lemma safe_for_magnitudes rec n ms r :
  (∀ x, safe (rec x)) → for_magnitudes self rec n ms = Some r → safe r.
Proof.
  intros Hrec. induction ms as [|[v name] ms IH]; simpl; [done|].
  destruct (n >=? v); [|done]. intros [= <-].
  apply safe_bind.
  { unfold divmod. destruct (v =? 0); [by intros e [= <-]|apply safe_return]. }
  intros [q r] _. apply safe_bind; [done|]. intros qs _.
  destruct (r >? 0); [|apply safe_return].
  apply safe_bind; [done|]. intros rs _. apply safe_return.
Qed.

Lemma safe_convert_currency fuel : ∀ n, safe (_convert_currency self fuel n).
Proof.
  induction fuel as [|fuel IH]; intros n; rewrite _convert_currency_unfold;
    (destruct (atoms self !! n); [apply safe_return|]);
    (destruct (for_magnitudes _ _ _ _) as [r|] eqn:E;
       [|apply safe_convert_individual]);
    (eapply safe_for_magnitudes; [|exact E]); [|done].
  intros x. apply safe_exhausted.
Qed.

Lemma safe_convert_decimal fuel i f : safe (_convert_decimal self fuel i f).
Proof.
  unfold _convert_decimal. apply safe_bind; [apply safe_convert_currency|].
  intros iw _. apply safe_bind; [apply safe_convert_individual|].
  intros fw _. apply safe_return.
Qed.

End Safety.

Lemma safe_parse input_val mode : safe (_parse_input input_val mode).
Proof.
  destruct (Str.any Char.isalpha (str input_val)) eqn:Ha.
  { rewrite (parse_letters _ _ Ha). apply safe_return. }
  destruct (Str.contains "." (str input_val)) eqn:Hd.
  { rewrite (parse_dotted _ _ Ha Hd). apply safe_bind; [|intros; apply safe_return].
    unfold integer_of_field.
    destruct (truthy _ && _); [apply safe_int|apply safe_return]. }
  destruct (parse_plain input_val mode Ha Hd) as [->|(m & _ & ->)];
    [apply safe_return|].
  apply safe_bind; [apply safe_int|intros; apply safe_return].
Qed.

Lemma convert_safe self fuel input_val mode :
  safe (convert self fuel input_val mode).
Proof.
  unfold convert. apply safe_bind; [apply safe_parse|].
  intros p Hp. pose proof (parse_shape _ _ _ Hp) as Hs.
  destruct (String.eqb _ _) eqn:E; [apply safe_convert_individual|].
  destruct (has_decimal p).
  - destruct Hs as (_ & _ & (i & _ & ->) & _). simpl.
    apply safe_convert_decimal.
  - destruct Hs as (_ & _ & [[Hm _]|(n & _ & ->)]); simpl;
      [by rewrite Hm in E|apply safe_convert_currency].
Qed.

(** X18. [convert] raises nothing but errors of the data: KeyError for a
    missing atom, ZeroDivisionError for a breakpoint 0, or the error of
    [int] on a superscript digit. The classifier never leaves a value of
    the wrong kind for the renderer, nor a split with too few fields. *)
Theorem convert_raises_only_data_errors self fuel input_val mode e :
  convert self fuel input_val mode = Raise e → data_error e.
Proof. apply convert_safe. Qed.

Lemma convert_raises_only_data_errors_witness :
  convert
    {| atoms := {[ 1 := "one" ]}; magnitudes := []; alphabet := ∅;
       decimal_point := "point"; separator := " " |} 0 (PStr "1 2") None
  = Raise (KeyError 2)
  ∧ data_error (KeyError 2).
Proof.
  split; [reflexivity|].
  apply (convert_raises_only_data_errors
           {| atoms := {[ 1 := "one" ]}; magnitudes := []; alphabet := ∅;
              decimal_point := "point"; separator := " " |}
           0 (PStr "1 2") None (KeyError 2)).
  reflexivity.
Defined.

Lemma decimal_without_superscript s :
  Str.all Char.isdecimal s = true → Str.any superscript s = false.
Proof.
  apply all_none. intros a Ha. unfold superscript. rewrite Ha.
  apply andb_false_r.
Qed.

Lemma budget_for n fuel :
  0 ≤ n → (Z.to_nat n ≤ fuel)%nat → n < 2 ^ Z.of_nat fuel.
Proof.
  intros Hn Hle.
  pose proof (Z.pow_gt_lin_r 2 (Z.of_nat fuel) ltac:(lia) ltac:(lia)). lia.
Qed.

Section Totality.

Variable self : NumberEngine.
Hypothesis breakpoints_above_one : Forall (λ m, 1 < m.1) (magnitudes self).
Hypothesis digits_are_atoms : ∀ d, 0 ≤ d ≤ 9 → is_Some (atoms self !! d).

Lemma individual_words_return s :
  Str.any superscript s = false → ∃ ws, individual_words self s = Return ws.
Proof.
  induction s as [|c s IH]; [by eexists|]. cbn [Str.any individual_words].
  intros [Hc Hs]%orb_false_iff. destruct (IH Hs) as [ws ->].
  unfold individual_word, int_char, atoms_get.
  destruct (Char.isdigit c) eqn:Hd;
    [|destruct (Char.isalpha c); by eexists].
  assert (Char.isdecimal c = true) as Hdec.
  { unfold superscript in Hc. rewrite Hd in Hc. by destruct (Char.isdecimal c). }
  destruct (decimal_char c Hdec) as (_ & _ & _ & _ & _ & _ & d & -> & Hr).
  destruct (digits_are_atoms d Hr) as [w Hw]. simpl. rewrite Hw. by eexists.
Qed.

Lemma individual_returns v :
  Str.any superscript (str v) = false →
  ∃ s, _convert_individual self v = Return s.
Proof.
  intros H. unfold _convert_individual.
  destruct (individual_words_return _ H) as [ws ->]. by eexists.
Qed.

Lemma individual_int_returns n :
  0 ≤ n → ∃ s, _convert_individual self (PInt n) = Return s.
Proof.
  intros Hn. apply individual_returns. simpl.
  apply decimal_without_superscript. by apply of_Z_nonneg.
Qed.

Lemma convert_total input_val mode :
  Str.any superscript (str input_val) = false →
  ∃ fuel0, ∀ fuel, (fuel0 ≤ fuel)%nat →
    ∃ s, convert self fuel input_val mode = Return s.
Proof.
  intros Hs.
  destruct (Str.any Char.isalpha (str input_val)) eqn:Ha.
  { exists O. intros fuel _. unfold convert. rewrite (parse_letters _ _ Ha).
    simpl. by apply individual_returns. }
  destruct (Str.contains "." (str input_val)) eqn:Hd.
  { destruct (integer_of_field_total (Fields.before "." (str input_val)))
      as (i & Hi & Hi0); [by apply any_before|].
    exists (Z.to_nat i). intros fuel Hfuel. unfold convert.
    rewrite (parse_dotted _ _ Ha Hd), Hi. simpl.
    destruct (String.eqb _ _); [by apply individual_returns|].
    unfold _convert_decimal.
    destruct (currency_returns self breakpoints_above_one digits_are_atoms
                fuel i Hi0) as [iw ->]; [by apply budget_for|].
    destruct (individual_returns
                (PStr (Fields.before "." (Fields.after "." (str input_val)))))
      as [fw ->]; [simpl; by apply any_before, any_after|].
    by eexists. }
  destruct (parse_plain input_val mode Ha Hd) as [Hp|(m & Hdig & Hp)].
  { exists O. intros fuel _. unfold convert. rewrite Hp. simpl.
    by apply individual_returns. }
  destruct (int_of_digits _ Hdig) as (n & Hn & Hn0).
  { unfold clean_chs. by do 3 apply any_remove. }
  exists (Z.to_nat n). intros fuel Hfuel. unfold convert.
  rewrite Hp, Hn. simpl.
  destruct (String.eqb _ _); [by apply individual_int_returns|].
  apply (currency_returns self breakpoints_above_one digits_are_atoms);
    [done|by apply budget_for].
Qed.

End Totality.

(** X19. With a sound vocabulary (every breakpoint above 1, the atoms 0 to
    9 present), [convert] returns a text for every input without
    superscript digit and every override, once the budget is large
    enough: nothing is raised. *)
Theorem convert_returns_with_a_sound_vocabulary self input_val mode :
  Forall (λ m, 1 < m.1) (magnitudes self) →
  (∀ d, 0 ≤ d ≤ 9 → is_Some (atoms self !! d)) →
  Str.any superscript (str input_val) = false →
  ∃ fuel0, ∀ fuel, (fuel0 ≤ fuel)%nat →
    ∃ s, convert self fuel input_val mode = Return s.
Proof. intros Hm Ha. by apply convert_total. Qed.

Lemma convert_returns_with_a_sound_vocabulary_witness :
  ∃ fuel0, ∀ fuel, (fuel0 ≤ fuel)%nat →
    ∃ s, convert Example.engine fuel (PStr "1,234.56") None = Return s.
Proof.
  apply (convert_returns_with_a_sound_vocabulary Example.engine
           (PStr "1,234.56") None).
  - repeat (constructor; [simpl; lia|]). constructor.
  - exact example_digits.
  - reflexivity.
Defined.

(** X20. A text with a dot and no letter whose first field is made of
    decimal digits, commas, spaces and hyphens, with a digit at least, is
    rendered, unless the override is ['individual'], as the decimal of the
    int that the cleaned first field spells and of the field after the
    first dot: grouping characters and a minus sign before the dot leave no
    trace. *)
Theorem dotted_number_is_rendered_as_a_decimal self fuel text mode :
  Str.any Char.isalpha text = false →
  Str.contains "." text = true →
  Str.all grouped (Fields.before "." text) = true →
  Str.any Char.isdecimal (Fields.before "." text) = true →
  or_currency mode ≠ "individual" →
  ∃ i, int (clean_chs (Fields.before "." text)) = Return i ∧ 0 ≤ i
       ∧ convert self fuel (PStr text) mode
         = _convert_decimal self fuel i
             (PStr (Fields.before "." (Fields.after "." text))).
Proof.
  intros Ha Hd Hg Hdig Hm.
  destruct (grouped_number _ Hg Hdig) as (_ & _ & Hclean & i & Hi & Hi0).
  exists i. split; [done|]. split; [done|].
  rewrite (convert_dotted self fuel (PStr text) mode Ha Hd Hm).
  unfold integer_of_field. simpl str. rewrite clean_orders_agree, Hclean, Hi.
  by destruct (clean_chs _).
Qed.

Lemma dotted_number_is_rendered_as_a_decimal_witness :
  ∃ i, int (clean_chs (Fields.before "." "-1,234.50")) = Return i ∧ 0 ≤ i
       ∧ convert Example.engine 4 (PStr "-1,234.50") None
         = _convert_decimal Example.engine 4 i (PStr "50").
Proof.
  apply (dotted_number_is_rendered_as_a_decimal Example.engine 4
           "-1,234.50" None); [reflexivity..|discriminate].
Defined.

(** ** The two language tables *)

Lemma supported_codes code :
  code ∈ codes ↔ is_Some (SUPPORTED_LANGUAGES !! code).
Proof.
  rewrite <- elem_of_dom. unfold SUPPORTED_LANGUAGES.
  rewrite dom_list_to_map_L, elem_of_list_to_set. unfold codes. simpl.
  rewrite !elem_of_cons, !elem_of_nil. tauto.
Qed.

(** X21. The table returned by [get_supported_languages] and the registry
    of engines have the same codes: [num2words] accepts exactly the codes
    that table lists, and raises the unsupported-language error for no
    other reason. *)
Theorem listed_languages_are_the_accepted_ones languages fuel input_val lang
    mode :
  (is_Some (get_supported_languages !! lang)
   ↔ is_Some (_engines languages !! lang))
  ∧ (is_Some (get_supported_languages !! lang)
     ↔ ∀ msg, num2words languages fuel input_val lang mode
              ≠ Raise (ValueError msg)).
Proof.
  assert (is_Some (get_supported_languages !! lang)
          ↔ is_Some (_engines languages !! lang)) as Hiff.
  { unfold get_supported_languages.
    by rewrite <- supported_codes, (codes_supported languages). }
  split; [done|]. rewrite Hiff. unfold num2words. split.
  - intros [e ->] msg H.
    by apply (convert_safe e fuel input_val mode) in H.
  - destruct (_engines languages !! lang); [by eexists|].
    intros H. by edestruct H.
Qed.

(** ** The rendering of a number is never empty *)

Lemma any_rev_app p s t :
  Str.any p (String.rev_app s t) = Str.any p s || Str.any p t.
Proof.
  revert t. induction s as [|c s IH]; intros t; [done|].
  cbn [String.rev_app Str.any]. rewrite IH. cbn [Str.any].
  by destruct (p c), (Str.any p s), (Str.any p t).
Qed.

Lemma any_rev p s : Str.any p (String.rev s) = Str.any p s.
Proof. unfold String.rev. rewrite any_rev_app. simpl. apply orb_false_r. Qed.

Lemma any_lstrip s :
  Str.any (λ c, negb (Char.isspace c)) (Str.lstrip s)
  = Str.any (λ c, negb (Char.isspace c)) s.
Proof.
  induction s as [|c s IH]; [done|]. cbn [Str.lstrip].
  destruct (Char.isspace c) eqn:E; [|done]. cbn [Str.any]. by rewrite E, IH.
Qed.

Lemma nonblank_strip s : nonblank s → nonblank (Str.strip s).
Proof.
  unfold nonblank, Str.strip. by rewrite any_rev, any_lstrip, any_rev, any_lstrip.
Qed.

Lemma any_append p a b : Str.any p (a +:+ b) = Str.any p a || Str.any p b.
Proof.
  induction a as [|c a IH]; [done|]. rewrite append_cons. cbn [Str.any].
  by rewrite IH, orb_assoc.
Qed.

Lemma nonblank_append a b : nonblank a → nonblank (a +:+ b).
Proof. unfold nonblank. rewrite any_append. by intros ->. Qed.

Lemma nonblank_join sep w ws : nonblank w → nonblank (Str.join sep (w :: ws)).
Proof.
  intros H. destruct ws as [|w' ws]; [done|]. cbn [Str.join].
  by apply nonblank_append.
Qed.

Lemma nonblank_nonempty s : nonblank s → s ≠ EmptyString.
Proof. by destruct s. Qed.

Section NeverEmpty.

Variable self : NumberEngine.
Hypothesis breakpoints_above_one : Forall (λ m, 1 < m.1) (magnitudes self).
Hypothesis digits_are_atoms : ∀ d, 0 ≤ d ≤ 9 → is_Some (atoms self !! d).
Hypothesis atoms_are_words : ∀ k w, atoms self !! k = Some w → nonblank w.

Lemma spelled_number_nonblank n :
  0 ≤ n →
  ∃ s, _convert_individual self (PStr (str (PInt n))) = Return s ∧ nonblank s.
Proof.
  intros Hn. destruct (of_Z_nonneg n Hn) as (Hdec & Hdig & _).
  destruct (decimal_text_plain _ Hdec) as (_ & _ & _ & _ & _ & Hg & Hf).
  destruct (individual_words_grouped self digits_are_atoms _ Hg)
    as (ws & Hws & Hsp).
  unfold _convert_individual. simpl str in *. rewrite Hws. eexists.
  split; [done|]. rewrite Hf in Hsp.
  destruct (Str.of_Z n) as [|c s]; [done|]. cbn [Str.chars] in Hsp.
  inversion Hsp as [|? w ? ws' (d & _ & Hw) _]; subst.
  apply nonblank_join. by eapply atoms_are_words.
Qed.

Lemma for_magnitudes_nonblank rec n ms r :
  (∀ v name, (v, name) ∈ ms → v ≤ n → v ≠ 0 →
     (∃ s, rec (n `div` v) = Return s ∧ nonblank s)
     ∧ (∃ s, rec (n `mod` v) = Return s)) →
  Forall (λ m, m.1 ≠ 0) ms →
  for_magnitudes self rec n ms = Some r → ∃ s, r = Return s ∧ nonblank s.
Proof.
  induction ms as [|[v name] ms IH]; intros H Hnz; simpl; [done|].
  apply Forall_cons in Hnz as [Hv Hnz]. simpl in Hv.
  destruct (n >=? v) eqn:E.
  - intros [= <-]. unfold divmod.
    assert ((v =? 0) = false) as -> by lia. simpl.
    destruct (H v name) as [(q & -> & Hq) [r' ->]]; [by left|lia|lia|]. simpl.
    destruct (n `mod` v >? 0); eexists; (split; [done|]);
      apply nonblank_strip; repeat apply nonblank_append; done.
  - apply IH; [|done]. intros v' name' Hin. apply (H v' name'). by right.
Qed.

Lemma currency_nonblank fuel :
  ∀ n, 0 ≤ n → n < 2 ^ Z.of_nat fuel →
    ∃ s, _convert_currency self fuel n = Return s ∧ nonblank s.
Proof.
  assert (Forall (λ m, m.1 ≠ 0) (magnitudes self)) as Hnz.
  { eapply Forall_impl; [exact breakpoints_above_one|]. simpl. lia. }
  induction fuel as [|fuel IH]; intros n Hn Hlt;
    rewrite _convert_currency_unfold;
    (destruct (atoms self !! n) as [w|] eqn:Ea;
       [exists w; split; [done|by eapply atoms_are_words]|]).
  - assert (n = 0) as -> by (simpl in Hlt; lia).
    rewrite for_magnitudes_none; [by apply spelled_number_nonblank|].
    eapply Forall_impl; [exact breakpoints_above_one|]. simpl. lia.
  - rewrite Nat2Z.inj_succ, Z.pow_succ_r in Hlt by lia.
    destruct (for_magnitudes _ _ _ _) as [r|] eqn:E;
      [|by apply spelled_number_nonblank].
    eapply for_magnitudes_nonblank; [|exact Hnz|exact E].
    intros v name Hin Hv _.
    pose proof (breakpoint_above_one self breakpoints_above_one v name Hin).
    destruct (halving v n (2 ^ Z.of_nat fuel)) as [[[? ?] [? ?]] _];
      [done..|].
    split; [by apply IH|].
    destruct (IH (n `mod` v)) as (s & -> & _); [done..|by eexists].
Qed.

End NeverEmpty.

(** X22. With a sound vocabulary whose atom words are not blank, the
    rendering of a number [n ≥ 0] is never empty: it is a text with a
    character other than white space in it. *)
Theorem number_rendering_is_never_empty self fuel n :
  Forall (λ m, 1 < m.1) (magnitudes self) →
  (∀ d, 0 ≤ d ≤ 9 → is_Some (atoms self !! d)) →
  (∀ k w, atoms self !! k = Some w → nonblank w) →
  0 ≤ n →
  n < 2 ^ Z.of_nat fuel →
  ∃ s, _convert_currency self fuel n = Return s
       ∧ s ≠ EmptyString ∧ nonblank s.
Proof.
  intros Hm Hd Hw Hn Hlt.
  destruct (currency_nonblank self Hm Hd Hw fuel n Hn Hlt) as (s & Hs & Hnb).
  exists s. split; [done|]. split; [by apply nonblank_nonempty|done].
Qed.

Lemma example_words k w : atoms Example.engine !! k = Some w → nonblank w.
Proof.
  intros H. apply elem_of_list_to_map_2 in H.
  assert (Forall (λ kw : Z * string,
                    Str.any (λ c, negb (Char.isspace c)) kw.2 = true)
            ((λ n, (Z.of_nat n, Example.word n)) <$> seq 0 100)) as Hall.
  { refine (bool_decide_unpack _ _). vm_compute. exact I. }
  rewrite Forall_forall in Hall. exact (Hall _ H).
Defined.

Lemma number_rendering_is_never_empty_witness :
  ∃ s, _convert_currency Example.engine 27 100000000 = Return s
       ∧ s ≠ EmptyString ∧ nonblank s.
Proof.
  apply (number_rendering_is_never_empty Example.engine 27 100000000).
  - repeat (constructor; [simpl; lia|]). constructor.
  - exact example_digits.
  - exact example_words.
  - lia.
  - vm_compute. reflexivity.
Defined.
